(** * Task collector of the Elasticsearch exporter ([collector/tasks.go])

    A shallow embedding of the task collector: the aggregation of task
    records into per-action counts, the fetch of the [_tasks] endpoint with
    its error paths, and the emission of one gauge sample per action. *)

From Stdlib Require Import ZArith Lia Ascii String.
From stdpp Require Import gmap strings list fin_maps pretty sorting.

Local Open Scope string_scope.
Local Open Scope Z_scope.

(** ** Go values used by the collector *)

Module Go.

(** [int64]: a two's complement integer of 64 bits, kept in [Z] with the
    wrap-around of Go's arithmetic written out. *)
Definition min_int64 : Z := - 2 ^ 63.
Definition max_int64 : Z := 2 ^ 63 - 1.

Definition wrap64 (z : Z) : Z := (z + 2 ^ 63) `mod` 2 ^ 64 - 2 ^ 63.

Definition int64_add (x y : Z) : Z := wrap64 (x + y).

(** [float64(x)] for an [int64] [x]: the nearest value with a significand
    of 53 bits, ties to the even significand.  Every such value is an
    integer, so the result is given by its exact value in [Z]. *)
Definition round53 (a : Z) : Z :=
  if a <? 2 ^ 53 then a
  else
    let e := Z.log2 a - 52 in
    let q := Z.shiftr a e in
    let r := Z.land a (Z.ones e) in
    let half := Z.shiftl 1 (e - 1) in
    let q' := if (half <? r) || ((r =? half) && Z.odd q) then q + 1 else q in
    Z.shiftl q' e.

Definition float64_of_int64 (x : Z) : Z := Z.sgn x * round53 (Z.abs x).

(** The [error] interface, restricted to the implementations this file
    meets: errors handed over by the environment or by a library (with the
    text of their [Error()] method), [*errors.errorString] as built by
    [fmt.Errorf] without [%w], and [*fmt.wrapError] as built with [%w]. *)
Inductive error : Type :=
| ExternalError (origin : string) (msg : string)
| errorString (s : string)
| wrapError (msg : string) (err : error).

Definition Error (e : error) : string :=
  match e with
  | ExternalError _ msg => msg
  | errorString s => s
  | wrapError msg _ => msg
  end.

Definition Unwrap (e : error) : option error :=
  match e with
  | wrapError _ err => Some err
  | _ => None
  end.

(** [fmt.Errorf(prefix + "%w", err)] *)
Definition Errorf_w (prefix : string) (err : error) : error :=
  wrapError (prefix +:+ Error err) err.

End Go.

Export Go.

(** ** The data of [tasks.go] *)

(** [TaskResponse]: only the action of a task is kept. *)
Record TaskResponse : Type := mkTaskResponse { Action : string }.

(** [TasksResponse]: a [nil] slice and an empty one are both the empty list. *)
Record TasksResponse : Type := mkTasksResponse { Tasks : list TaskResponse }.

(** [AggregatedTaskStats]: the map is a Go reference, [None] is the [nil]
    map. *)
Record AggregatedTaskStats : Type :=
  mkAggregatedTaskStats { CountByAction : option (gmap string Z) }.

(** ** [AggregateTasks] *)

(** One iteration of the loop: [actions[task.Action] += 1], where a missing
    key reads as the zero value. *)
Definition incrAction (actions : gmap string Z) (task : TaskResponse)
  : gmap string Z :=
  <[Action task := int64_add (default 0 (actions !! Action task)) 1]> actions.

(** The result is a pointer, [None] being [nil]. *)
Definition AggregateTasks (t : TasksResponse) : option AggregatedTaskStats :=
  let actions := foldl incrAction ∅ (Tasks t) in
  let agg := Some {| CountByAction := Some actions |} in
  agg.

(** The records of a snapshot with a given action, and their number. *)
Definition recordsWith (a : string) (l : list TaskResponse) : list TaskResponse :=
  filter (λ task, Action task = a) l.

Definition countOf (a : string) (l : list TaskResponse) : Z :=
  Z.of_nat (length (recordsWith a l)).

(** The map inside the result of [AggregateTasks]. *)
Definition countsOf (t : TasksResponse) : gmap string Z :=
  foldl incrAction ∅ (Tasks t).

(** ** [net/url]: query strings and reference resolution *)

Module url.

Definition byteIn (lo hi c : ascii) : bool :=
  ((N_of_ascii lo <=? N_of_ascii c) && (N_of_ascii c <=? N_of_ascii hi))%N.

(** [shouldEscape(c, encodeQueryComponent)]: letters, digits and the four
    marks stay; in a query component every reserved byte is escaped, and so
    is everything else. *)
Definition shouldEscape (c : ascii) : bool :=
  if byteIn "a" "z" c || byteIn "A" "Z" c || byteIn "0" "9" c then false
  else if Ascii.eqb c "-" || Ascii.eqb c "_" || Ascii.eqb c "." || Ascii.eqb c "~"
  then false
  else true.

Definition upperhex : string := "0123456789ABCDEF".

Definition hexDigit (n : N) : ascii :=
  match String.get (N.to_nat n) upperhex with
  | Some c => c
  | None => "0"%char
  end.

(** [escape(s, encodeQueryComponent)] *)
Fixpoint escape (s : string) : string :=
  match s with
  | EmptyString => EmptyString
  | String c s' =>
      if shouldEscape c then
        if Ascii.eqb c " " then String "+" (escape s')
        else
          String "%"
            (String (hexDigit (N.shiftr (N_of_ascii c) 4))
               (String (hexDigit (N.land (N_of_ascii c) 15)) (escape s')))
      else String c (escape s')
  end.

Definition QueryEscape (s : string) : string := escape s.

Definition ishex (c : ascii) : bool :=
  byteIn "0" "9" c || byteIn "a" "f" c || byteIn "A" "F" c.

Definition unhex (c : ascii) : N :=
  if byteIn "0" "9" c then N_of_ascii c - N_of_ascii "0"
  else if byteIn "a" "f" c then N_of_ascii c - N_of_ascii "a" + 10
  else if byteIn "A" "F" c then N_of_ascii c - N_of_ascii "A" + 10
  else 0.

(** [EscapeError]: the offending escape, at most three bytes of it. *)
Inductive EscapeError : Type := mkEscapeError (s : string).

Definition take3 (s : string) : string :=
  match s with
  | String a (String b (String c _)) => String a (String b (String c EmptyString))
  | _ => s
  end.

(** [unescape(s, encodeQueryComponent)]: the first malformed escape from
    the left is the error; otherwise [%XX] is the byte [XX] and [+] is a
    space. *)
Fixpoint unescape (s : string) : string + EscapeError :=
  match s with
  | EmptyString => inl EmptyString
  | String c s' =>
      if Ascii.eqb c "%" then
        match s' with
        | String h1 (String h2 s'') =>
            if ishex h1 && ishex h2 then
              match unescape s'' with
              | inl t => inl (String (ascii_of_N (N.lor (N.shiftl (unhex h1) 4) (unhex h2))) t)
              | inr e => inr e
              end
            else inr (mkEscapeError (take3 s))
        | _ => inr (mkEscapeError (take3 s))
        end
      else
        match unescape s' with
        | inl t => inl (String (if Ascii.eqb c "+" then " "%char else c) t)
        | inr e => inr e
        end
  end.

Definition QueryUnescape (s : string) : string + EscapeError := unescape s.

(** [strings.Cut(s, sep)] for a separator of one byte. *)
Fixpoint Cut (sep : ascii) (s : string) : string * string * bool :=
  match s with
  | EmptyString => (EmptyString, EmptyString, false)
  | String c s' =>
      if Ascii.eqb c sep then (EmptyString, s', true)
      else
        let '(before, after, found) := Cut sep s' in
        (String c before, after, found)
  end.

Fixpoint Contains (sep : ascii) (s : string) : bool :=
  match s with
  | EmptyString => false
  | String c s' => Ascii.eqb c sep || Contains sep s'
  end.

(** The pieces that the loop of [parseQuery] takes off the query one
    after the other with [strings.Cut(query, "&")]. *)
Fixpoint pieces (sep : ascii) (s : string) : list string :=
  match s with
  | EmptyString => []
  | String c s' =>
      if Ascii.eqb c sep then EmptyString :: pieces sep s'
      else
        match pieces sep s' with
        | [] => [String c EmptyString]
        | p :: ps => String c p :: ps
        end
  end.

(** [Values]: [map[string][]string]. *)
Inductive ParseError : Type :=
| InvalidSemicolon
| InvalidEscape (e : EscapeError).


Definition Values_Set (v : gmap string (list string)) (key value : string)
  : gmap string (list string) :=
  <[key := [value]]> v.

(** One round of the loop of [parseQuery] on the piece [key]. *)
Definition parseQuery_step
    (st : gmap string (list string) * option ParseError) (key : string)
  : gmap string (list string) * option ParseError :=
  let '(m, err) := st in
  if Contains ";" key then (m, Some InvalidSemicolon)
  else if decide (key = EmptyString) then (m, err)
  else
    let '(key, value, _) := Cut "=" key in
    match QueryUnescape key with
    | inr err1 => (m, if err is None then Some (InvalidEscape err1) else err)
    | inl key =>
        match QueryUnescape value with
        | inr err1 => (m, if err is None then Some (InvalidEscape err1) else err)
        | inl value => (<[key := (default [] (m !! key) ++ [value])%list]> m, err)
        end
    end.

Definition ParseQuery (query : string)
  : gmap string (list string) * option ParseError :=
  foldl parseQuery_step (∅, None) (pieces "&" query).

Definition string_le (s1 s2 : string) : Prop := String.leb s1 s2 = true.

#[global] Instance string_le_dec : RelDecision string_le.
Proof. intros s1 s2. unfold string_le. apply _. Defined.

(** [Values.Encode]: the keys in sorted order, every value of a key as
    [key=value], joined by [&]. *)
Definition Values_Encode (v : gmap string (list string)) : string :=
  let keys := merge_sort string_le (fst <$> map_to_list v) in
  foldl
    (λ buf k,
       let keyEscaped := QueryEscape k in
       foldl
         (λ buf x,
            (if (0 <? String.length buf)%nat then buf +:+ "&" else buf)
              +:+ keyEscaped +:+ "=" +:+ QueryEscape x)
         buf (default [] (v !! k)))
    EmptyString keys.

(** [*Userinfo] *)
Record Userinfo : Type :=
  mkUserinfo { username : string; password : string; passwordSet : bool }.

Record URL : Type := mkURL {
  Scheme : string;
  Opaque : string;
  User : option Userinfo;
  Host : string;
  Path : string;
  RawPath : string;
  OmitHost : bool;
  ForceQuery : bool;
  RawQuery : string;
  Fragment : string;
  RawFragment : string
}.

(** The zero [URL]. *)
Definition zeroURL : URL :=
  {| Scheme := ""; Opaque := ""; User := None; Host := ""; Path := "";
     RawPath := ""; OmitHost := false; ForceQuery := false; RawQuery := "";
     Fragment := ""; RawFragment := "" |}.

Definition with_Scheme (x : string) (u : URL) : URL :=
  mkURL x (Opaque u) (User u) (Host u) (Path u) (RawPath u) (OmitHost u)
    (ForceQuery u) (RawQuery u) (Fragment u) (RawFragment u).
Definition with_User (x : option Userinfo) (u : URL) : URL :=
  mkURL (Scheme u) (Opaque u) x (Host u) (Path u) (RawPath u) (OmitHost u)
    (ForceQuery u) (RawQuery u) (Fragment u) (RawFragment u).
Definition with_Opaque (x : string) (u : URL) : URL :=
  mkURL (Scheme u) x (User u) (Host u) (Path u) (RawPath u) (OmitHost u)
    (ForceQuery u) (RawQuery u) (Fragment u) (RawFragment u).
Definition with_Host (x : string) (u : URL) : URL :=
  mkURL (Scheme u) (Opaque u) (User u) x (Path u) (RawPath u) (OmitHost u)
    (ForceQuery u) (RawQuery u) (Fragment u) (RawFragment u).
Definition with_Path (x : string) (u : URL) : URL :=
  mkURL (Scheme u) (Opaque u) (User u) (Host u) x (RawPath u) (OmitHost u)
    (ForceQuery u) (RawQuery u) (Fragment u) (RawFragment u).
Definition with_RawQuery (x : string) (u : URL) : URL :=
  mkURL (Scheme u) (Opaque u) (User u) (Host u) (Path u) (RawPath u) (OmitHost u)
    (ForceQuery u) x (Fragment u) (RawFragment u).
Definition with_Fragment (x y : string) (u : URL) : URL :=
  mkURL (Scheme u) (Opaque u) (User u) (Host u) (Path u) (RawPath u) (OmitHost u)
    (ForceQuery u) (RawQuery u) x y.

Definition with_RawPath (x : string) (u : URL) : URL :=
  mkURL (Scheme u) (Opaque u) (User u) (Host u) (Path u) x (OmitHost u)
    (ForceQuery u) (RawQuery u) (Fragment u) (RawFragment u).

(** The routines of [net/url] that the collector only passes through:
    escaping in path mode, the merge of two paths with its removal of dot
    segments, and the rendering of a URL.  Their rules are not interpreted
    here. *)
Class PathOps : Type := {
  escapePath : string → string;
  unescapePath : string → option string;
  validEncodedPath : string → bool;
  resolvePath : string → string → string;
  URL_String : URL → string
}.

Section resolve.

Context `{PathOps}.

(** [URL.EscapedPath] *)
Definition EscapedPath (u : URL) : string :=
  if negb (bool_decide (RawPath u = "")) && validEncodedPath (RawPath u)
     && bool_decide (unescapePath (RawPath u) = Some (Path u))
  then RawPath u
  else if decide (Path u = "*") then "*"
  else escapePath (Path u).

(** [URL.setPath]: on a path that does not unescape the URL is left as
    it is (the caller below drops the error). *)
Definition setPath (u : URL) (p : string) : URL :=
  match unescapePath p with
  | None => u
  | Some path =>
      let u := with_Path path u in
      if decide (p = escapePath path) then with_RawPath "" u
      else with_RawPath p u
  end.

(** [URL.ResolveReference] *)
Definition ResolveReference (u ref : URL) : URL :=
  let url := ref in
  let url := if decide (Scheme ref = "") then with_Scheme (Scheme u) url else url in
  if negb (bool_decide (Scheme ref = "")) || negb (bool_decide (Host ref = ""))
     || bool_decide (is_Some (User ref))
  then setPath url (resolvePath (EscapedPath ref) "")
  else if negb (bool_decide (Opaque ref = "")) then
    with_Path "" (with_Host "" (with_User None url))
  else
    let url :=
      if bool_decide (Path ref = "") && negb (ForceQuery ref)
         && bool_decide (RawQuery ref = "")
      then
        let url := with_RawQuery (RawQuery u) url in
        if decide (Fragment ref = "")
        then with_Fragment (Fragment u) (RawFragment u) url
        else url
      else url in
    if bool_decide (Path ref = "") && negb (bool_decide (Opaque u = "")) then
      with_Path "" (with_Host "" (with_User None (with_Opaque (Opaque u) url)))
    else
      let url := with_Host (Host u) url in
      let url := with_User (User u) url in
      setPath url (resolvePath (EscapedPath u) (EscapedPath ref)).

(** [URL.Query]: the error of [ParseQuery] is dropped. *)
Definition Query (u : URL) : gmap string (list string) :=
  (ParseQuery (RawQuery u)).1.

End resolve.

(** [splitHostPort], behind [Hostname] and [Port]. *)
Fixpoint lastIndexByte (c : ascii) (s : string) : option nat :=
  match s with
  | EmptyString => None
  | String x s' =>
      match lastIndexByte c s' with
      | Some i => Some (S i)
      | None => if Ascii.eqb x c then Some O else None
      end
  end.

Fixpoint allDigits (s : string) : bool :=
  match s with
  | EmptyString => true
  | String c s' => byteIn "0" "9" c && allDigits s'
  end.

Definition validOptionalPort (port : string) : bool :=
  match port with
  | EmptyString => true
  | String c rest => Ascii.eqb c ":" && allDigits rest
  end.

Definition hasPrefixByte (c : ascii) (s : string) : bool :=
  match s with
  | String x _ => Ascii.eqb x c
  | EmptyString => false
  end.

Definition hasSuffixByte (c : ascii) (s : string) : bool :=
  match lastIndexByte c s with
  | Some i => bool_decide (S i = String.length s)
  | None => false
  end.

Definition splitHostPort (hostPort : string) : string * string :=
  let '(host, port) :=
    match lastIndexByte ":" hostPort with
    | Some colon =>
        if validOptionalPort (String.substring colon (String.length hostPort - colon) hostPort)
        then (String.substring 0 colon hostPort,
              String.substring (S colon) (String.length hostPort - S colon) hostPort)
        else (hostPort, EmptyString)
    | None => (hostPort, EmptyString)
    end in
  let host :=
    if hasPrefixByte "[" host && hasSuffixByte "]" host
    then String.substring 1 (String.length host - 2) host
    else host in
  (host, port).

Definition Hostname (u : URL) : string := (splitHostPort (Host u)).1.
Definition Port (u : URL) : string := (splitHostPort (Host u)).2.

End url.

(** ** [encoding/json]: documents and the matching of member names *)

Module json.

#[local] Set Warnings "-register-all".

(** A JSON text after the syntax check, members in the order of the text;
    a name may occur more than once. *)
Inductive value : Type :=
| Null
| Bool (b : bool)
| Number (literal : string)
| String_ (s : string)
| Array (elems : list value)
| Object (members : list (string * value)).

(** The syntax check and tokenizer of [encoding/json]: [inr] is a
    [*json.SyntaxError]. *)
Class Syntax : Type := { parse : string → value + error }.

(** What an [UnmarshalTypeError] calls the JSON value; [null] never makes
    one. *)
Definition kindOf (j : value) : string :=
  match j with
  | Null => "null"
  | Bool _ => "bool"
  | Number _ => "number"
  | String_ _ => "string"
  | Array _ => "array"
  | Object _ => "object"
  end.

Definition UnmarshalTypeError (Value Struct Field Type_ : string) : error :=
  ExternalError "json.UnmarshalTypeError"
    (if bool_decide (Struct = "") && bool_decide (Field = "")
     then "json: cannot unmarshal " +:+ Value +:+ " into Go value of type " +:+ Type_
     else "json: cannot unmarshal " +:+ Value +:+ " into Go struct field "
            +:+ Struct +:+ "." +:+ Field +:+ " of type " +:+ Type_).

(** [foldName]: a name folded for the comparison without case. ASCII
    letters go to upper case; the two other runes whose fold set meets
    ASCII, U+212A (Kelvin sign, bytes E2 84 AA) and U+017F (long s, bytes
    C5 BF), go to [K] and [S].  Every other rune folds to a rune outside
    ASCII and is left as it is, which does not change the comparison with
    the ASCII names of the fields below. *)
Fixpoint foldName (s : string) : string :=
  match s with
  | EmptyString => EmptyString
  | String c s' =>
      if url.byteIn "a" "z" c then
        String (ascii_of_N (N_of_ascii c - 32)) (foldName s')
      else if Ascii.eqb c "226" then
        match s' with
        | String c1 (String c2 s'') =>
            if Ascii.eqb c1 "132" && Ascii.eqb c2 "170"
            then String "K" (foldName s'')
            else String c (foldName s')
        | _ => String c (foldName s')
        end
      else if Ascii.eqb c "197" then
        match s' with
        | String c1 s'' =>
            if Ascii.eqb c1 "191" then String "S" (foldName s'')
            else String c (foldName s')
        | _ => String c (foldName s')
        end
      else String c (foldName s')
  end.

(** The field a member name selects: the exact name of the field, or else
    a name equal to it after folding. *)
Definition matchesField (field key : string) : bool :=
  bool_decide (key = field) || bool_decide (foldName key = foldName field).

(** [decodeState], as far as results depend on it: the first error
    saved. *)
Record decodeState : Type := mkDecodeState { savedError : option error }.

Definition saveError (d : decodeState) (err : error) : decodeState :=
  match savedError d with
  | None => mkDecodeState (Some err)
  | Some _ => d
  end.

End json.

(** ** [json.Unmarshal] at the types of [tasks.go]

    The decoder is driven by the Go types: a struct takes an object and
    looks only at the members that select one of its fields, a slice takes
    an array, a string takes a string, [null] leaves a struct or a string
    as it is and makes a slice [nil].  Any other value is skipped and
    reported as [UnmarshalTypeError]; decoding goes on and the first such
    error is the result. *)

Section decode.

Import json.

Definition zeroTaskResponse : TaskResponse := {| Action := "" |}.
Definition zeroTasksResponse : TasksResponse := {| Tasks := [] |}.

(** A value for the field [Action string `json:"action"`]. *)
Definition decodeAction (d : decodeState) (cur : string) (j : value)
  : string * decodeState :=
  match j with
  | String_ s => (s, d)
  | Null => (cur, d)
  | _ =>
      (cur, saveError d
              (UnmarshalTypeError (kindOf j) "TaskResponse" "tasks.action" "string"))
  end.

(** One member of a task object. *)
Definition decodeTaskMember (st : TaskResponse * decodeState)
    (member : string * value) : TaskResponse * decodeState :=
  let '(cur, d) := st in
  if matchesField "action" member.1 then
    let '(a, d) := decodeAction d (Action cur) member.2 in
    ({| Action := a |}, d)
  else (cur, d).

(** A value for an element of type [TaskResponse]. *)
Definition decodeTaskResponse (d : decodeState) (cur : TaskResponse) (j : value)
  : TaskResponse * decodeState :=
  match j with
  | Object members => foldl decodeTaskMember (cur, d) members
  | Null => (cur, d)
  | _ =>
      (cur, saveError d
              (UnmarshalTypeError (kindOf j) "TasksResponse" "tasks"
                 "collector.TaskResponse"))
  end.

(** The elements of an array, appended one by one to the slice reset to
    length zero. *)
Definition decodeElement (st : list TaskResponse * decodeState) (j : value)
  : list TaskResponse * decodeState :=
  let '(acc, d) := st in
  let '(task, d) := decodeTaskResponse d zeroTaskResponse j in
  ((acc ++ [task])%list, d).

(** A value for the field [Tasks []TaskResponse `json:"tasks"`]. *)
Definition decodeTasks (d : decodeState) (cur : list TaskResponse) (j : value)
  : list TaskResponse * decodeState :=
  match j with
  | Array elems => foldl decodeElement ([], d) elems
  | Null => ([], d)
  | _ =>
      (cur, saveError d
              (UnmarshalTypeError (kindOf j) "TasksResponse" "tasks"
                 "[]collector.TaskResponse"))
  end.

(** One member of the response object. *)
Definition decodeResponseMember (st : TasksResponse * decodeState)
    (member : string * value) : TasksResponse * decodeState :=
  let '(cur, d) := st in
  if matchesField "tasks" member.1 then
    let '(ts, d) := decodeTasks d (Tasks cur) member.2 in
    ({| Tasks := ts |}, d)
  else (cur, d).

(** A value for the variable [tr] of type [TasksResponse]. *)
Definition decodeTasksResponse (d : decodeState) (cur : TasksResponse) (j : value)
  : TasksResponse * decodeState :=
  match j with
  | Object members => foldl decodeResponseMember (cur, d) members
  | Null => (cur, d)
  | _ =>
      (cur, saveError d
              (UnmarshalTypeError (kindOf j) "" "" "collector.TasksResponse"))
  end.

Context `{Syntax}.

(** [json.Unmarshal(bts, &tr)]: the value left in [tr] and the error. *)
Definition Unmarshal (bts : string) (tr : TasksResponse)
  : TasksResponse * option error :=
  match parse bts with
  | inr err => (tr, Some err)
  | inl j =>
      let '(tr, d) := decodeTasksResponse (mkDecodeState None) tr j in
      (tr, savedError d)
  end.

End decode.


(** ** [prometheus]: descriptors and constant metrics *)

Module prometheus.

Record Desc : Type := mkDesc {
  fqName : string;
  help : string;
  variableLabels : list string;
  constLabels : list (string * string)
}.

Inductive ValueType : Type := CounterValue | GaugeValue | UntypedValue.

(** A constant metric; [val] is a [float64] that came from an integer, kept
    as its exact value. *)
Record Metric : Type := mkMetric {
  desc : Desc;
  valType : ValueType;
  val : Z;
  labelValues : list string
}.

(** [BuildFQName] *)
Definition BuildFQName (namespace subsystem name : string) : string :=
  if decide (name = "") then ""
  else
    (if decide (namespace = "") then "" else namespace +:+ "_")
      +:+ (if decide (subsystem = "") then "" else subsystem +:+ "_")
      +:+ name.

(** [NewDesc]; its check of the names is passed by the names used below. *)
Definition NewDesc (fqName help : string) (variableLabels : list string)
    (constLabels : list (string * string)) : Desc :=
  mkDesc fqName help variableLabels constLabels.

(** [MustNewConstMetric]: it panics on a number of label values other than
    the descriptor's and on a label value that is not UTF-8.  The collector
    calls it with one value for the one label of its descriptor, a string
    made by [json.Unmarshal], which yields UTF-8 only. *)
Definition MustNewConstMetric (desc : Desc) (valueType : ValueType)
    (value : Z) (labelValues : list string) : Metric :=
  mkMetric desc valueType value labelValues.

End prometheus.

(** ** The world of a collection cycle *)

(** [res.Body]: what [io.ReadAll] returns on it and what [Close] returns. *)
Record ReadCloser : Type := mkReadCloser {
  ReadAll : string * option error;
  Close : option error
}.

(** [*http.Response] *)
Record Response : Type := mkResponse {
  StatusCode : Z;
  Body : ReadCloser
}.

Definition StatusOK : Z := 200.

(** [*http.Client], as far as [Get] goes: a response or an error for the URL
    asked for. *)
Record Client : Type := mkClient { Get : string → Response + error }.

(** [log.Logger] of go-kit, a sink for lists of keys and values. *)
Record Logger : Type := mkLogger { sink : string }.

(** What a cycle does to the world, in order. *)
Inductive event : Type :=
| EvLog (logger : Logger) (keyvals : list (string * string))
| EvGet (rawurl : string)
| EvReadAll
| EvClose
| EvSend (m : prometheus.Metric).

(** Code with effects returns its result and the events it made. *)
Definition IO (A : Type) : Type := A * list event.

Definition ret {A} (a : A) : IO A := (a, []).

Definition bind {A B} (m : IO A) (k : A → IO B) : IO B :=
  let '(a, es) := m in
  let '(b, es') := k a in
  (b, (es ++ es')%list).

Definition emit (e : event) : IO unit := (tt, [e]).

Notation "x ⇐ m ;; k" := (bind m (λ x, k))
  (at level 100, m at next level, right associativity, only parsing).

(** The samples a list of events puts on the channel. *)
Definition sent (es : list event) : list prometheus.Metric :=
  omap (λ e, match e with EvSend m => Some m | _ => None end) es.

(** What a call ends in: it returns, or it panics. *)
Inductive outcome (A : Type) : Type :=
| Returns (a : A)
| Panics (msg : string).
Arguments Returns {A} a.
Arguments Panics {A} msg.

(** ** The collector *)

Section collector.

Import url json prometheus.

(** [namespace], a constant of the package declared outside [tasks.go]. *)
Variable namespace : string.

(** [actionFilter], the global written once by the flag [tasks.actions]
    before any collector is made. *)
Variable actionFilter : string.

(** The order in which [range] visits the entries of a map is not fixed by
    Go: any arrangement of the entries. *)
Variable rangeOrder : list (string * Z) → list (string * Z).

Context `{PathOps} `{Syntax}.

(** The default of the flag. *)
Definition defaultActionFilter : string := "indices:*".

Definition taskActionDesc : Desc :=
  NewDesc (BuildFQName namespace "task_stats" "action_total")
    "Number of tasks of a certain action" ["action"] [].

(** [TaskCollector]; the three references are present (not [nil]), as the
    exporter hands them over. *)
Record TaskCollector : Type := mkTaskCollector {
  logger : Logger;
  hc : Client;
  u : URL
}.

(** [level.Info(logger).Log(...)] and [level.Warn(logger).Log(...)]; the
    error of [Log] is dropped by the callers. *)
Definition Log (logger : Logger) (lvl : string) (keyvals : list (string * string))
  : IO unit :=
  emit (EvLog logger (("level", lvl) :: keyvals)).


(** The URL of the request: lines 84 to 88 of [tasks.go]. *)
Definition requestURL (t : TaskCollector) : URL :=
  let u := ResolveReference (u t) (with_Path "_tasks" zeroURL) in
  let q := Query u in
  let q := Values_Set q "group_by" "none" in
  let q := Values_Set q "actions" actionFilter in
  with_RawQuery (Values_Encode q) u.

(** The statements of [fetchAndDecodeAndAggregateTaskStats] below its
    [defer]: they fix the values the call returns. *)
Definition fetchBody (u : URL) (res : Response)
  : IO (option AggregatedTaskStats * option error) :=
  if decide (StatusCode res ≠ StatusOK) then
    ret (None,
         Some (errorString
                 ("HTTP Request to " +:+ URL_String u +:+ " failed with code "
                    +:+ pretty (StatusCode res))))
  else
    _ ⇐ emit EvReadAll;;
    let '(bts, err) := ReadAll (Body res) in
    match err with
    | Some err => ret (None, Some err)
    | None =>
        let '(tr, err) := Unmarshal bts zeroTasksResponse in
        match err with
        | Some err => ret (None, Some err)
        | None =>
            let stats := AggregateTasks tr in
            ret (stats, None)
        end
    end.

(** The deferred function: it assigns the local [err], which no [return]
    reads any more, and logs. *)
Definition deferredClose (t : TaskCollector) (res : Response) : IO unit :=
  _ ⇐ emit EvClose;;
  let err := Close (Body res) in
  match err with
  | Some err =>
      Log (logger t) "warn"
        [("msg", "failed to close http.Client"); ("err", Error err)]
  | None => ret tt
  end.

Definition fetchAndDecodeAndAggregateTaskStats (t : TaskCollector)
  : IO (option AggregatedTaskStats * option error) :=
  let u := requestURL t in
  _ ⇐ emit (EvGet (URL_String u));;
  match Get (hc t) (URL_String u) with
  | inr err =>
      ret (None,
           Some (errorString
                   ("failed to get data stream stats health from "
                      +:+ Scheme u +:+ "://" +:+ Hostname u +:+ ":" +:+ Port u
                      +:+ Path u +:+ ": " +:+ Error err)))
  | inl res =>
      results ⇐ fetchBody u res;;
      _ ⇐ deferredClose t res;;
      ret results
  end.

(** The sample sent for one entry of the map: lines 73 to 78. *)
Definition sampleFor (entry : string * Z) : Metric :=
  let '(action, count) := entry in
  MustNewConstMetric taskActionDesc GaugeValue (float64_of_int64 count) [action].

(** [range stats.CountByAction] with the send of its body; a [nil] map has
    no entries. *)
Definition emitSamples (counts : option (gmap string Z)) : IO unit :=
  foldl
    (λ (acc : IO unit) entry, _ ⇐ acc;; emit (EvSend (sampleFor entry)))
    (ret tt)
    (rangeOrder (map_to_list (default ∅ counts))).

(** [Update]; the context is not used, the channel receives the [EvSend]
    events. *)
Definition Update (t : TaskCollector) : IO (outcome (option error)) :=
  r ⇐ fetchAndDecodeAndAggregateTaskStats t;;
  let '(stats, err) := r in
  match err with
  | Some err =>
      let err := Errorf_w "failed to fetch and decode task stats: " err in
      ret (Returns (Some err))
  | None =>
      match stats with
      | None => ret (Panics "invalid memory address or nil pointer dereference")
      | Some stats =>
          _ ⇐ emitSamples (CountByAction stats);;
          ret (Returns None)
      end
  end.

End collector.

(** ** Notions the statements below use *)

Section vocabulary.

Import url json.

(** The members of an object that do not select the field [field]. *)
Definition unrecognized (field : string) (members : list (string * value)) : Prop :=
  Forall (λ member, matchesField field member.1 = false) members.

(** A task object without the members that do not select [action]. *)
Definition pruneTask (j : value) : value :=
  match j with
  | Object members =>
      Object (List.filter (λ member, matchesField "action" member.1) members)
  | _ => j
  end.

Definition pruneTasks (j : value) : value :=
  match j with
  | Array elems => Array (pruneTask <$> elems)
  | _ => j
  end.

(** A response without the members that do not select [tasks], and its task
    objects without the members that do not select [action]. *)
Definition prune (j : value) : value :=
  match j with
  | Object members =>
      Object ((λ member, (member.1, pruneTasks member.2))
                <$> List.filter (λ member, matchesField "tasks" member.1) members)
  | _ => j
  end.

(** A task object with the member [action] among other members. *)
Definition taskObject (rec : list (string * value) * string * list (string * value))
  : value :=
  let '(before, action, after) := rec in
  Object (before ++ ("action", String_ action) :: after)%list.

(** A response with the member [tasks] among other members. *)
Definition responseObject (before : list (string * value))
    (recs : list (list (string * value) * string * list (string * value)))
    (after : list (string * value)) : value :=
  Object (before ++ ("tasks", Array (taskObject <$> recs)) :: after)%list.

(** The same response, handed over with another result of closing its
    body. *)
Definition withClose (c : option error) (res : Response) : Response :=
  {| StatusCode := StatusCode res;
     Body := {| ReadAll := ReadAll (Body res); Close := c |} |}.

Definition clientWithClose (c : option error) (hc : Client) : Client :=
  {| Get := λ rawurl,
       match Get hc rawurl with
       | inl res => inl (withClose c res)
       | inr err => inr err
       end |}.

Definition collectorWithClose (c : option error) (t : TaskCollector)
  : TaskCollector :=
  {| logger := logger t; hc := clientWithClose c (hc t); u := u t |}.

End vocabulary.

(** ** A small world to run the collector in *)

Module Sample.

Import url json prometheus.

(** Path routines for a base URL without a path of its own and for paths
    that need no escape. *)
Definition pathOps : PathOps :=
  {| escapePath := λ p, p;
     unescapePath := λ p, Some p;
     validEncodedPath := λ _, true;
     resolvePath := λ _ ref, "/" +:+ ref;
     URL_String := λ u,
       Scheme u +:+ "://" +:+ Host u +:+ Path u
         +:+ (if decide (RawQuery u = "") then "" else "?" +:+ RawQuery u) |}.

Definition base : URL :=
  with_Host "localhost:9200" (with_Scheme "http" zeroURL).

Definition quote : string := String "034" EmptyString.

Definition quoted (s : string) : string := quote +:+ s +:+ quote.

(** A body with three tasks of two actions, the first with a member besides
    [action], and beside [tasks] a member of the response. *)
Definition bodyText : string :=
  "{" +:+ quoted "nodes" +:+ ":{}," +:+ quoted "tasks" +:+ ":[{"
    +:+ quoted "node" +:+ ":" +:+ quoted "n1" +:+ ","
    +:+ quoted "action" +:+ ":" +:+ quoted "indices:data/write/bulk" +:+ "},{"
    +:+ quoted "action" +:+ ":" +:+ quoted "cluster:monitor/nodes/stats" +:+ "},{"
    +:+ quoted "action" +:+ ":" +:+ quoted "indices:data/write/bulk" +:+ ","
    +:+ quoted "id" +:+ ":7}]}".

Definition bodyRecords
  : list (list (string * value) * string * list (string * value)) :=
  [ ([("node", String_ "n1")], "indices:data/write/bulk", []);
    ([], "cluster:monitor/nodes/stats", []);
    ([], "indices:data/write/bulk", [("id", Number "7")]) ].

Definition bodyDoc : value :=
  responseObject [("nodes", Object [])] bodyRecords [].

(** A body whose task has, beside [action], a member named [Action] that
    is a number. *)
Definition caseText : string :=
  "{" +:+ quoted "tasks" +:+ ":[{" +:+ quoted "action" +:+ ":" +:+ quoted "a"
    +:+ "," +:+ quoted "Action" +:+ ":7}]}".

Definition caseDoc : value :=
  Object [("tasks", Array [Object [("action", String_ "a"); ("Action", Number "7")]])].

(** A syntax that knows the two texts above and refuses every other
    text. *)
Definition syntax : Syntax :=
  {| parse := λ bts,
       if decide (bts = bodyText) then inl bodyDoc
       else if decide (bts = caseText) then inl caseDoc
       else inr (ExternalError "json.SyntaxError"
                   "invalid character looking for beginning of value") |}.

Definition okBody : ReadCloser := {| ReadAll := (bodyText, None); Close := None |}.

Definition caseBody : ReadCloser := {| ReadAll := (caseText, None); Close := None |}.

Definition respond (status : Z) (body : ReadCloser) : Client :=
  {| Get := λ _, inl {| StatusCode := status; Body := body |} |}.

Definition refuse : Client :=
  {| Get := λ _, inr (ExternalError "net.OpError" "dial tcp: connection refused") |}.

Definition collector (hc : Client) : TaskCollector :=
  {| logger := {| sink := "stderr" |}; hc := hc; u := base |}.

(** An order of iteration other than the one of the list. *)
Definition reversed (l : list (string * Z)) : list (string * Z) := reverse l.

Definition tasks3 : TasksResponse :=
  {| Tasks := [ {| Action := "indices:data/write/bulk" |};
                {| Action := "cluster:monitor/nodes/stats" |};
                {| Action := "indices:data/write/bulk" |} ] |}.

End Sample.

(** ** Further notions: totals, shapes of documents *)

Section more_vocabulary.

Import url json.

(** The sum of the counts of a map. *)
Definition totalCount (m : gmap string Z) : Z :=
  map_fold (λ _ count acc, count + acc) 0 m.

(** Two maps of counts merged, counts of the same action added. *)
Definition addCounts (m1 m2 : gmap string Z) : gmap string Z :=
  union_with (λ x y, Some (x + y)) m1 m2.

(** The documents the types of [tasks.go] take without a type error: a
    string or [null] for [Action], an object or [null] for a task, an array
    or [null] for [Tasks], an object or [null] for the response; members
    that select no field may be anything. *)
Definition shapedAction (j : value) : bool :=
  match j with
  | String_ _ | Null => true
  | _ => false
  end.

Definition shapedTask (j : value) : bool :=
  match j with
  | Null => true
  | Object members =>
      forallb (λ member,
                 if matchesField "action" member.1 then shapedAction member.2
                 else true) members
  | _ => false
  end.

Definition shapedTasks (j : value) : bool :=
  match j with
  | Null => true
  | Array elems => forallb shapedTask elems
  | _ => false
  end.

Definition shapedResponse (j : value) : bool :=
  match j with
  | Null => true
  | Object members =>
      forallb (λ member,
                 if matchesField "tasks" member.1 then shapedTasks member.2
                 else true) members
  | _ => false
  end.

(** The lines a list of events writes to the log. *)
Definition logged (es : list event) : list (Logger * list (string * string)) :=
  omap (λ e, match e with EvLog lg keyvals => Some (lg, keyvals) | _ => None end) es.

End more_vocabulary.

(** ** More of the small world *)

Module SampleMore.

Import url json.

(** A body with an empty list of tasks. *)
Definition emptyText : string :=
  "{" +:+ Sample.quoted "tasks" +:+ ":[]}".

Definition emptyDoc : value := Object [("tasks", Array [])].

(** A syntax that knows the text above and refuses every other text. *)
Definition syntax : Syntax :=
  {| parse := λ bts,
       if decide (bts = emptyText) then inl emptyDoc
       else inr (ExternalError "json.SyntaxError"
                   "invalid character looking for beginning of value") |}.

Definition emptyBody : ReadCloser := {| ReadAll := (emptyText, None); Close := None |}.

(** A body whose read breaks off. *)
Definition brokenBody : ReadCloser :=
  {| ReadAll := ("{", Some (ExternalError "io" "unexpected EOF")); Close := None |}.

(** A body that is no JSON text. *)
Definition garbageBody : ReadCloser :=
  {| ReadAll := ("<html>", None); Close := None |}.

(** The body of [Sample], failing to close. *)
Definition unclosableBody : ReadCloser :=
  {| ReadAll := (Sample.bodyText, None);
     Close := Some (errorString "close failed") |}.

(** A collector whose base URL names no port. *)
Definition portless (hc : Client) : TaskCollector :=
  {| logger := {| sink := "stderr" |}; hc := hc;
     u := with_Host "localhost" (with_Scheme "http" zeroURL) |}.

End SampleMore.

(** ** Arithmetic of [int64] *)

Section int64_facts.

Lemma wrap64_small z : min_int64 <= z <= max_int64 → wrap64 z = z.
Proof.
  unfold wrap64, min_int64, max_int64. intros Hz.
  rewrite Z.mod_small; lia.
Qed.

Lemma wrap64_idemp_add z k : wrap64 (wrap64 z + k) = wrap64 (z + k).
Proof.
  unfold wrap64.
  replace ((z + 2 ^ 63) `mod` 2 ^ 64 - 2 ^ 63 + k + 2 ^ 63)
    with ((z + 2 ^ 63) `mod` 2 ^ 64 + k) by lia.
  rewrite Zplus_mod_idemp_l. f_equal. f_equal. lia.
Qed.

Lemma wrap64_range z : min_int64 <= wrap64 z <= max_int64.
Proof.
  unfold wrap64, min_int64, max_int64.
  pose proof (Z.mod_pos_bound (z + 2 ^ 63) (2 ^ 64)). lia.
Qed.

End int64_facts.

(** ** The loop of [AggregateTasks] *)

Section aggregate_facts.

Implicit Types (l : list TaskResponse) (m : gmap string Z) (a : string).

Lemma recordsWith_cons a task l :
  recordsWith a (task :: l) =
  if decide (Action task = a) then task :: recordsWith a l else recordsWith a l.
Proof. unfold recordsWith. rewrite filter_cons. done. Qed.

Lemma countOf_nil a : countOf a [] = 0.
Proof. done. Qed.

Lemma countOf_cons a task l :
  countOf a (task :: l) =
  (if decide (Action task = a) then 1 else 0) + countOf a l.
Proof.
  unfold countOf. rewrite recordsWith_cons.
  case_decide; simpl; lia.
Qed.

Lemma countOf_nonneg a l : 0 <= countOf a l.
Proof. unfold countOf. lia. Qed.

Lemma countOf_le_length a l : countOf a l <= Z.of_nat (length l).
Proof.
  unfold countOf, recordsWith.
  pose proof (length_filter (λ task, Action task = a) l). lia.
Qed.

Lemma countOf_pos_iff a l :
  0 < countOf a l ↔ ∃ task, task ∈ l ∧ Action task = a.
Proof.
  unfold countOf, recordsWith. split.
  - intros Hpos.
    destruct (filter (λ task, Action task = a) l) as [|task l'] eqn:Hf;
      [simpl in Hpos; lia|].
    exists task.
    assert (Hin : task ∈ filter (λ task, Action task = a) l)
      by (rewrite Hf; left).
    apply list_elem_of_filter in Hin as [? ?]. done.
  - intros (task & Hin & Ha).
    assert (Hin' : task ∈ filter (λ task, Action task = a) l)
      by (apply list_elem_of_filter; done).
    destruct (filter (λ task, Action task = a) l); [inversion Hin'|].
    simpl. lia.
Qed.

Lemma countOf_Permutation a l l' : l ≡ₚ l' → countOf a l = countOf a l'.
Proof. intros Hp. unfold countOf, recordsWith. by rewrite Hp. Qed.

(** The loop started in any map [m]: a key without a record keeps its
    entry, a key with [n > 0] records holds the old value plus [n],
    wrapped. *)
Lemma foldl_incrAction_lookup l m a :
  foldl incrAction m l !! a =
  if decide (countOf a l = 0) then m !! a
  else Some (wrap64 (default 0 (m !! a) + countOf a l)).
Proof.
  revert m. induction l as [|task l IH]; intros m; [done|].
  cbn [foldl]. rewrite IH, countOf_cons. unfold incrAction, int64_add.
  pose proof (countOf_nonneg a l).
  destruct (decide (Action task = a)) as [->|Hne].
  - rewrite lookup_insert_eq. cbn [default].
    repeat case_decide; try lia.
    + f_equal. f_equal. lia.
    + unfold id. rewrite wrap64_idemp_add. f_equal. f_equal. lia.
  - rewrite lookup_insert_ne by done.
    repeat case_decide; try lia; done.
Qed.

Lemma countsOf_lookup t a :
  countsOf t !! a =
  if decide (countOf a (Tasks t) = 0) then None
  else Some (wrap64 (countOf a (Tasks t))).
Proof.
  unfold countsOf. rewrite foldl_incrAction_lookup, lookup_empty.
  case_decide; [done|]. f_equal.
Qed.

Lemma AggregateTasks_countsOf t :
  AggregateTasks t = Some {| CountByAction := Some (countsOf t) |}.
Proof. done. Qed.

(** A Go slice has at most [max_int64] elements; below that bound no
    count wraps. *)
Lemma countsOf_lookup_exact t a :
  Z.of_nat (length (Tasks t)) <= max_int64 →
  countsOf t !! a =
  if decide (countOf a (Tasks t) = 0) then None
  else Some (countOf a (Tasks t)).
Proof.
  intros Hlen. rewrite countsOf_lookup. case_decide; [done|].
  rewrite wrap64_small; [done|].
  pose proof (countOf_le_length a (Tasks t)).
  pose proof (countOf_nonneg a (Tasks t)).
  unfold min_int64. lia.
Qed.

End aggregate_facts.

(** ** The conversion to [float64] *)

Section float64_facts.

Lemma round53_small a : a < 2 ^ 53 → round53 a = a.
Proof.
  intros Ha. unfold round53.
  destruct (a <? 2 ^ 53) eqn:Hlt; [done|].
  apply Z.ltb_ge in Hlt. lia.
Qed.

Lemma round53_pos a : 0 < a → 0 < round53 a.
Proof.
  intros Ha. unfold round53.
  destruct (a <? 2 ^ 53) eqn:Hlt; [done|].
  apply Z.ltb_ge in Hlt.
  assert (Hlog : 53 <= Z.log2 a) by (apply Z.log2_le_pow2; lia).
  set (e := Z.log2 a - 52).
  assert (He : 0 < e) by lia.
  assert (Hq : 1 <= Z.shiftr a e).
  { rewrite Z.shiftr_div_pow2 by lia.
    apply Z.div_le_lower_bound; [apply Z.pow_pos_nonneg; lia|].
    rewrite Z.mul_1_r.
    transitivity (2 ^ Z.log2 a); [apply Z.pow_le_mono_r; lia|].
    apply Z.log2_spec. lia. }
  rewrite Z.shiftl_mul_pow2 by lia.
  apply Z.mul_pos_pos; [|apply Z.pow_pos_nonneg; lia].
  destruct ((_ <? _) || _); lia.
Qed.

(** Every integer of magnitude at most [2 ^ 53] is a [float64]. *)
Lemma float64_of_int64_exact x :
  Z.abs x <= 2 ^ 53 → float64_of_int64 x = x.
Proof.
  intros Hx. unfold float64_of_int64.
  destruct (decide (Z.abs x = 2 ^ 53)) as [Heq|Hne].
  - rewrite Heq. change (round53 (2 ^ 53)) with (2 ^ 53).
    rewrite <- Heq. rewrite Z.mul_comm. apply Z.abs_sgn.
  - rewrite round53_small by lia. rewrite Z.mul_comm. apply Z.abs_sgn.
Qed.

(** A positive count is never sent as zero. *)
Lemma float64_of_int64_pos x : 0 < x → 0 < float64_of_int64 x.
Proof.
  intros Hx. unfold float64_of_int64.
  rewrite Z.sgn_pos, Z.abs_eq by lia.
  pose proof (round53_pos x Hx). lia.
Qed.

(** Past [2 ^ 53] the conversion rounds: to the even neighbour on a tie. *)
Example float64_of_int64_rounds :
  float64_of_int64 (2 ^ 53 + 1) = 2 ^ 53 ∧
  float64_of_int64 (2 ^ 53 + 3) = 2 ^ 53 + 4 ∧
  float64_of_int64 max_int64 = 2 ^ 63.
Proof. repeat split; vm_compute; reflexivity. Qed.

End float64_facts.

(** ** Facts about query strings *)

Section url_facts.

Import url.









Lemma append_assoc (a b c : string) : (a +:+ b) +:+ c = a +:+ (b +:+ c).
Proof.
  induction a as [|x a IH]; [done|].
  change (String x a +:+ b) with (String x (a +:+ b)).
  change (String x (a +:+ b) +:+ c) with (String x ((a +:+ b) +:+ c)).
  by rewrite IH.
Qed.

(** The query the collector builds, for any filter. *)
Lemma Encode_request filter :
  Values_Encode (Values_Set (Values_Set ∅ "group_by" "none") "actions" filter)
  = "actions=" +:+ QueryEscape filter +:+ "&group_by=none".
Proof.
  unfold Values_Encode, Values_Set.
  assert (Hkeys :
    merge_sort string_le
      (fst <$> map_to_list
         (<["actions":=[filter]]>
            (<["group_by":=["none"]]> (∅ : gmap string (list string)))))
    = ["actions"; "group_by"]) by (vm_compute; reflexivity).
  rewrite Hkeys. cbn [foldl].
  rewrite lookup_insert_eq, lookup_insert_ne, lookup_insert_eq by done.
  change "&group_by=none" with ("&" +:+ "group_by=none").
  rewrite <- (append_assoc (QueryEscape filter) "&" "group_by=none").
  vm_compute. reflexivity.
Qed.


Context `{PathOps}.

Lemma RawQuery_setPath u p : RawQuery (setPath u p) = RawQuery u.
Proof.
  unfold setPath. destruct (unescapePath p); [|done].
  case_decide; done.
Qed.

Lemma Scheme_setPath u p : Scheme (setPath u p) = Scheme u.
Proof.
  unfold setPath. destruct (unescapePath p); [|done].
  case_decide; done.
Qed.

Lemma Host_setPath u p : Host (setPath u p) = Host u.
Proof.
  unfold setPath. destruct (unescapePath p); [|done].
  case_decide; done.
Qed.

(** Resolving the reference [_tasks]: scheme, host and user of the base,
    the merged path, and no query: the query of the base is not kept. *)
Lemma ResolveReference_tasks base :
  ResolveReference base (with_Path "_tasks" zeroURL) =
  setPath (with_User (User base)
             (with_Host (Host base)
                (with_Scheme (Scheme base) (with_Path "_tasks" zeroURL))))
    (resolvePath (EscapedPath base) (EscapedPath (with_Path "_tasks" zeroURL))).
Proof. reflexivity. Qed.

Lemma RawQuery_ResolveReference_tasks base :
  RawQuery (ResolveReference base (with_Path "_tasks" zeroURL)) = "".
Proof. rewrite ResolveReference_tasks, RawQuery_setPath. done. Qed.

Lemma Query_ResolveReference_tasks base :
  Query (ResolveReference base (with_Path "_tasks" zeroURL)) = ∅.
Proof. unfold Query. rewrite RawQuery_ResolveReference_tasks. done. Qed.

End url_facts.

(** ** Facts about the decoder *)

Section decode_facts.

Import json.

Implicit Types (d : decodeState) (members : list (string * value)).

(** A loop over members skips the ones that select no field. *)
Lemma foldl_filter_skip {A B} (f : A → B → A) (p : B → bool) (l : list B) a :
  (∀ a b, p b = false → f a b = a) →
  foldl f a (List.filter p l) = foldl f a l.
Proof.
  intros Hskip. revert a. induction l as [|b l IH]; intros a; [done|].
  cbn [List.filter foldl]. destruct (p b) eqn:Hp; cbn [foldl].
  - apply IH.
  - rewrite (Hskip a b Hp). apply IH.
Qed.

Lemma decodeTaskMember_skip st member :
  matchesField "action" member.1 = false → decodeTaskMember st member = st.
Proof. intros Hm. destruct st. unfold decodeTaskMember. by rewrite Hm. Qed.

Lemma decodeResponseMember_skip st member :
  matchesField "tasks" member.1 = false → decodeResponseMember st member = st.
Proof. intros Hm. destruct st. unfold decodeResponseMember. by rewrite Hm. Qed.

Lemma foldl_decodeTaskMember_unrecognized st members :
  unrecognized "action" members → foldl decodeTaskMember st members = st.
Proof.
  intros Hun. revert st. induction Hun as [|member members Hm _ IH]; intros st.
  - done.
  - cbn [foldl]. rewrite decodeTaskMember_skip by done. apply IH.
Qed.

Lemma foldl_decodeResponseMember_unrecognized st members :
  unrecognized "tasks" members → foldl decodeResponseMember st members = st.
Proof.
  intros Hun. revert st. induction Hun as [|member members Hm _ IH]; intros st.
  - done.
  - cbn [foldl]. rewrite decodeResponseMember_skip by done. apply IH.
Qed.

Lemma decodeTaskResponse_pruneTask d cur j :
  decodeTaskResponse d cur (pruneTask j) = decodeTaskResponse d cur j.
Proof.
  destruct j as [| | | | |members]; try done.
  cbn [pruneTask decodeTaskResponse].
  apply foldl_filter_skip. intros st member. apply decodeTaskMember_skip.
Qed.

Lemma foldl_decodeElement_pruneTask st (elems : list value) :
  foldl decodeElement st (pruneTask <$> elems) = foldl decodeElement st elems.
Proof.
  revert st. induction elems as [|j elems IH]; intros st; [done|].
  cbn [fmap list_fmap foldl]. rewrite IH. f_equal.
  destruct st as [acc d]. unfold decodeElement.
  by rewrite decodeTaskResponse_pruneTask.
Qed.

Lemma decodeTasks_pruneTasks d cur j :
  decodeTasks d cur (pruneTasks j) = decodeTasks d cur j.
Proof.
  destruct j as [| | | |elems|]; try done.
  cbn [pruneTasks decodeTasks]. apply foldl_decodeElement_pruneTask.
Qed.

Lemma foldl_decodeResponseMember_pruneTasks st members :
  foldl decodeResponseMember st
    ((λ member, (member.1, pruneTasks member.2)) <$> members)
  = foldl decodeResponseMember st members.
Proof.
  revert st. induction members as [|member members IH]; intros st; [done|].
  cbn [fmap list_fmap foldl]. rewrite IH. f_equal.
  destruct st as [cur d]. unfold decodeResponseMember. cbn [fst snd].
  by rewrite decodeTasks_pruneTasks.
Qed.

(** The decoder does not see the members that select no field. *)
Lemma decodeTasksResponse_prune d cur j :
  decodeTasksResponse d cur (prune j) = decodeTasksResponse d cur j.
Proof.
  destruct j as [| | | | |members]; try done.
  cbn [prune decodeTasksResponse].
  rewrite foldl_decodeResponseMember_pruneTasks.
  apply foldl_filter_skip. intros st member. apply decodeResponseMember_skip.
Qed.

(** A task object whose only member selecting [action] is a string. *)
Lemma decodeTaskResponse_taskObject d cur before action after :
  unrecognized "action" before → unrecognized "action" after →
  decodeTaskResponse d cur (taskObject (before, action, after))
  = ({| Action := action |}, d).
Proof.
  intros Hb Ha. cbn [taskObject decodeTaskResponse].
  rewrite foldl_app, (foldl_decodeTaskMember_unrecognized _ before) by done.
  cbn [foldl]. rewrite (foldl_decodeTaskMember_unrecognized _ after) by done.
  reflexivity.
Qed.

Lemma foldl_decodeElement_taskObject d acc
    (recs : list (list (string * value) * string * list (string * value))) :
  Forall (λ rec, unrecognized "action" rec.1.1 ∧ unrecognized "action" rec.2) recs →
  foldl decodeElement (acc, d) (taskObject <$> recs)
  = ((acc ++ ((λ rec, {| Action := rec.1.2 |}) <$> recs))%list, d).
Proof.
  intros Hrecs. revert acc.
  induction Hrecs as [|[[before action] after] recs [Hb Ha] _ IH]; intros acc.
  - cbn. by rewrite app_nil_r.
  - cbn [fmap list_fmap foldl]. unfold decodeElement at 2.
    rewrite decodeTaskResponse_taskObject by done.
    rewrite IH. cbn [fst snd]. by rewrite <- app_assoc.
Qed.

(** A response with one member [tasks], an array of such task objects. *)
Lemma decodeTasksResponse_responseObject d cur before recs after :
  unrecognized "tasks" before → unrecognized "tasks" after →
  Forall (λ rec, unrecognized "action" rec.1.1 ∧ unrecognized "action" rec.2) recs →
  decodeTasksResponse d cur (responseObject before recs after)
  = ({| Tasks := (λ rec, {| Action := rec.1.2 |}) <$> recs |}, d).
Proof.
  intros Hb Ha Hrecs. unfold responseObject. cbn [decodeTasksResponse].
  rewrite foldl_app, (foldl_decodeResponseMember_unrecognized _ before) by done.
  cbn [foldl]. rewrite (foldl_decodeResponseMember_unrecognized _ after) by done.
  unfold decodeResponseMember. cbn [fst snd].
  change (matchesField "tasks" "tasks") with true. cbn iota.
  cbn [decodeTasks]. rewrite foldl_decodeElement_taskObject by done.
  reflexivity.
Qed.

(** A task object without a member that selects [action] leaves the zero
    value. *)
Lemma decodeTaskResponse_no_action d members :
  unrecognized "action" members →
  decodeTaskResponse d zeroTaskResponse (Object members) = (zeroTaskResponse, d).
Proof. intros Hun. cbn. by apply foldl_decodeTaskMember_unrecognized. Qed.

End decode_facts.

(** ** Facts about a collection cycle *)

(** An event of one kind is not in a list of events of other kinds. *)
Ltac absent_event Hin :=
  repeat (apply elem_of_cons in Hin as [Hin|Hin]; [discriminate Hin|]);
  by apply elem_of_nil in Hin.

Section collector_facts.

Import url json prometheus.

Variable namespace : string.
Variable actionFilter : string.
Variable rangeOrder : list (string * Z) → list (string * Z).
Context `{PathOps} `{Syntax}.

Lemma sent_app es es' : sent (es ++ es') = (sent es ++ sent es')%list.
Proof. unfold sent. apply omap_app. Qed.

Lemma sent_EvSend (l : list (string * Z)) :
  sent ((λ entry, EvSend (sampleFor namespace entry)) <$> l)
  = sampleFor namespace <$> l.
Proof. induction l as [|entry l IH]; [done|]. cbn. by rewrite <- IH. Qed.

Lemma emitSamples_loop (l : list (string * Z)) (es : list event) :
  foldl (λ (acc : IO unit) entry,
           bind acc (λ _, emit (EvSend (sampleFor namespace entry))))
    (tt, es) l
  = (tt, (es ++ ((λ entry, EvSend (sampleFor namespace entry)) <$> l))%list).
Proof.
  revert es. induction l as [|entry l IH]; intros es; cbn [foldl fmap list_fmap].
  - by rewrite app_nil_r.
  - unfold bind at 2, emit. rewrite IH, <- app_assoc. done.
Qed.

(** The loop of [Update] sends the sample of every entry, in the order of
    the iteration, and does nothing else. *)
Lemma emitSamples_events counts :
  emitSamples namespace rangeOrder counts =
  (tt, (λ entry, EvSend (sampleFor namespace entry))
         <$> rangeOrder (map_to_list (default ∅ counts))).
Proof. unfold emitSamples. apply emitSamples_loop. Qed.

(** The four ways a fetch ends. *)
Lemma fetch_Get_error t err :
  Get (hc t) (URL_String (requestURL actionFilter t)) = inr err →
  fetchAndDecodeAndAggregateTaskStats actionFilter t =
  ((None,
    Some (errorString
            ("failed to get data stream stats health from "
               +:+ Scheme (requestURL actionFilter t) +:+ "://" +:+ Hostname (requestURL actionFilter t) +:+ ":"
               +:+ Port (requestURL actionFilter t) +:+ Path (requestURL actionFilter t) +:+ ": " +:+ Error err))),
   [EvGet (URL_String (requestURL actionFilter t))]).
Proof.
  intros HGet. unfold fetchAndDecodeAndAggregateTaskStats.
  rewrite HGet. reflexivity.
Qed.

Lemma fetch_Get_ok t res :
  Get (hc t) (URL_String (requestURL actionFilter t)) = inl res →
  fetchAndDecodeAndAggregateTaskStats actionFilter t =
  ((fetchBody (requestURL actionFilter t) res).1,
   EvGet (URL_String (requestURL actionFilter t))
     :: ((fetchBody (requestURL actionFilter t) res).2 ++ (deferredClose t res).2)%list).
Proof.
  intros HGet. unfold fetchAndDecodeAndAggregateTaskStats.
  rewrite HGet. unfold bind, emit, ret.
  destruct (fetchBody (requestURL actionFilter t) res) as [results es].
  destruct (deferredClose t res) as [[] es']. cbn.
  by rewrite app_nil_r.
Qed.

Lemma deferredClose_events t res :
  (deferredClose t res).2 =
  EvClose ::
    match Close (Body res) with
    | Some err =>
        [EvLog (logger t)
           [("level", "warn"); ("msg", "failed to close http.Client");
            ("err", Error err)]]
    | None => []
    end.
Proof. unfold deferredClose. destruct (Close (Body res)); reflexivity. Qed.

Lemma fetchBody_status u res :
  StatusCode res ≠ StatusOK →
  fetchBody u res =
  ((None,
    Some (errorString
            ("HTTP Request to " +:+ URL_String u +:+ " failed with code "
               +:+ pretty (StatusCode res)))), []).
Proof. intros Hne. unfold fetchBody. by rewrite decide_True. Qed.

Lemma fetchBody_read_error u res bts err :
  StatusCode res = StatusOK →
  ReadAll (Body res) = (bts, Some err) →
  fetchBody u res = ((None, Some err), [EvReadAll]).
Proof.
  intros Hok Hread. unfold fetchBody.
  rewrite decide_False by (by intros ?). rewrite Hread. reflexivity.
Qed.

Lemma fetchBody_decode_error u res bts tr err :
  StatusCode res = StatusOK →
  ReadAll (Body res) = (bts, None) →
  Unmarshal bts zeroTasksResponse = (tr, Some err) →
  fetchBody u res = ((None, Some err), [EvReadAll]).
Proof.
  intros Hok Hread Hdec. unfold fetchBody.
  rewrite decide_False by (by intros ?). rewrite Hread, Hdec. reflexivity.
Qed.

Lemma fetchBody_ok u res bts tr :
  StatusCode res = StatusOK →
  ReadAll (Body res) = (bts, None) →
  Unmarshal bts zeroTasksResponse = (tr, None) →
  fetchBody u res = ((AggregateTasks tr, None), [EvReadAll]).
Proof.
  intros Hok Hread Hdec. unfold fetchBody.
  rewrite decide_False by (by intros ?). rewrite Hread, Hdec. reflexivity.
Qed.

(** The statements below the [defer] send nothing, and return either an
    error and no statistics or statistics and no error. *)
Lemma fetchBody_shape u res :
  sent (fetchBody u res).2 = [] ∧
  ((∃ err, (fetchBody u res).1 = (None, Some err)) ∨
   (∃ tr, (fetchBody u res).1 = (AggregateTasks tr, None))).
Proof.
  unfold fetchBody. case_decide; [split; [done|left; eauto]|].
  destruct (ReadAll (Body res)) as [bts [err|]]; [split; [done|left; eauto]|].
  destruct (Unmarshal bts zeroTasksResponse) as [tr [err|]];
    (split; [done|]); [left|right]; eauto.
Qed.

Lemma fetch_shape t :
  sent (fetchAndDecodeAndAggregateTaskStats actionFilter t).2 = [] ∧
  ((∃ err, (fetchAndDecodeAndAggregateTaskStats actionFilter t).1 = (None, Some err)) ∨
   (∃ tr, (fetchAndDecodeAndAggregateTaskStats actionFilter t).1 = (AggregateTasks tr, None))).
Proof.
  destruct (Get (hc t) (URL_String (requestURL actionFilter t))) as [res|err] eqn:HGet.
  - rewrite (fetch_Get_ok _ _ HGet). cbn [fst snd].
    destruct (fetchBody_shape (requestURL actionFilter t) res) as [Hsent Hres].
    split; [|done].
    change (EvGet ?x :: ?l) with ([EvGet x] ++ l)%list.
    rewrite !sent_app, Hsent, deferredClose_events.
    destruct (Close (Body res)); done.
  - rewrite (fetch_Get_error _ _ HGet). split; [done|left; eauto].
Qed.

(** [Update] after a failed fetch: the wrapped error, the events of the
    fetch and no others. *)
Lemma Update_fetch_error t stats err es :
  fetchAndDecodeAndAggregateTaskStats actionFilter t = ((stats, Some err), es) →
  Update namespace actionFilter rangeOrder t =
  (Returns (Some (Errorf_w "failed to fetch and decode task stats: " err)), es).
Proof.
  intros Hf. unfold Update, bind. rewrite Hf. cbn. by rewrite app_nil_r.
Qed.

(** [Update] after a fetch that went well. *)
Lemma Update_fetch_ok t stats es :
  fetchAndDecodeAndAggregateTaskStats actionFilter t = ((Some stats, None), es) →
  Update namespace actionFilter rangeOrder t =
  (Returns None,
   (es ++ ((λ entry, EvSend (sampleFor namespace entry))
             <$> rangeOrder (map_to_list (default ∅ (CountByAction stats)))))%list).
Proof.
  intros Hf. unfold Update, bind. rewrite Hf.
  rewrite emitSamples_events. cbn. by rewrite app_nil_r.
Qed.

(** [Update] does not panic: the statistics are there whenever the error is
    not. *)
Lemma Update_returns t : ∃ err, (Update namespace actionFilter rangeOrder t).1 = Returns err.
Proof.
  destruct (fetchAndDecodeAndAggregateTaskStats actionFilter t) as [[stats err] es] eqn:Hf.
  destruct (fetch_shape t) as [_ [[e He]|[tr He]]]; rewrite Hf in He;
    cbn in He; simplify_eq.
  - rewrite (Update_fetch_error _ _ _ _ Hf). eauto.
  - rewrite AggregateTasks_countsOf in Hf.
    rewrite (Update_fetch_ok _ _ _ Hf). eauto.
Qed.

End collector_facts.

(** * Properties of the collector *)

Import url json prometheus.

(** ** The aggregator *)

(** C1: for every snapshot and every action string, the count that
    [AggregateTasks] stores for the action is the number of records of the
    snapshot whose action is that string; the action is a key only if such a
    record exists; an empty snapshot gives an empty map.  The bound on the
    length is the one Go puts on every slice. *)
Theorem AggregateTasks_counts_records (t : TasksResponse) (a : string) :
  Z.of_nat (length (Tasks t)) <= max_int64 →
  ∃ m : gmap string Z,
    AggregateTasks t = Some {| CountByAction := Some m |} ∧
    default 0 (m !! a) = countOf a (Tasks t) ∧
    (∀ c, m !! a = Some c → c = countOf a (Tasks t)) ∧
    (is_Some (m !! a) ↔ ∃ task, task ∈ Tasks t ∧ Action task = a) ∧
    (Tasks t = [] → m = ∅).
Proof.
  intros Hlen. exists (countsOf t).
  pose proof (countsOf_lookup_exact t a Hlen) as Hlook.
  pose proof (countOf_pos_iff a (Tasks t)) as Hpos.
  pose proof (countOf_nonneg a (Tasks t)) as Hnn.
  split; [apply AggregateTasks_countsOf|].
  repeat split.
  - rewrite Hlook. case_decide; cbn; congruence.
  - intros c. rewrite Hlook. case_decide; congruence.
  - rewrite Hlook. intros [c Hc]. apply Hpos.
    case_decide; [discriminate|lia].
  - intros Hex. apply Hpos in Hex. rewrite Hlook.
    case_decide; [lia|eauto].
  - intros Hnil. unfold countsOf. by rewrite Hnil.
Qed.

Lemma AggregateTasks_counts_records_witness :
  Z.of_nat (length (Tasks Sample.tasks3)) <= max_int64 ∧
  ∃ m : gmap string Z,
    AggregateTasks Sample.tasks3 = Some {| CountByAction := Some m |} ∧
    default 0 (m !! "indices:data/write/bulk")
      = countOf "indices:data/write/bulk" (Tasks Sample.tasks3) ∧
    (∀ c, m !! "indices:data/write/bulk" = Some c →
          c = countOf "indices:data/write/bulk" (Tasks Sample.tasks3)) ∧
    (is_Some (m !! "indices:data/write/bulk") ↔
     ∃ task, task ∈ Tasks Sample.tasks3 ∧ Action task = "indices:data/write/bulk") ∧
    (Tasks Sample.tasks3 = [] → m = ∅).
Proof.
  assert (Hlen : Z.of_nat (length (Tasks Sample.tasks3)) <= max_int64)
    by (vm_compute; discriminate).
  split; [exact Hlen|].
  exact (AggregateTasks_counts_records Sample.tasks3 "indices:data/write/bulk" Hlen).
Defined.



(** C10: for every input [AggregateTasks] returns a pointer that is not
    [nil], to statistics whose map is not [nil]; every count in the map is at
    least 1; a record whose action is the empty string is counted under the
    empty key, and a task object that has no member selecting [action]
    decodes to such a record. *)
Theorem AggregateTasks_counts_at_least_one (t : TasksResponse) :
  ∃ (stats : AggregatedTaskStats) (m : gmap string Z),
    AggregateTasks t = Some stats ∧ CountByAction stats = Some m ∧
    (Z.of_nat (length (Tasks t)) <= max_int64 →
     (∀ a c, m !! a = Some c → 1 <= c) ∧
     (∀ task, task ∈ Tasks t → Action task = "" →
              m !! "" = Some (countOf "" (Tasks t)) ∧ 1 <= countOf "" (Tasks t))) ∧
    (∀ d members, unrecognized "action" members →
       decodeTaskResponse d zeroTaskResponse (Object members)
       = ({| Action := "" |}, d)).
Proof.
  exists {| CountByAction := Some (countsOf t) |}, (countsOf t).
  split; [apply AggregateTasks_countsOf|]. split; [done|]. split.
  - intros Hlen. split.
    + intros a c. rewrite (countsOf_lookup_exact t a Hlen).
      pose proof (countOf_nonneg a (Tasks t)).
      case_decide; [discriminate|]. intros [= <-]. lia.
    + intros task Hin Hact.
      assert (Hpos : 0 < countOf "" (Tasks t))
        by (apply countOf_pos_iff; eauto).
      rewrite (countsOf_lookup_exact t "" Hlen).
      case_decide; [lia|]. split; [done|lia].
  - intros d members. apply decodeTaskResponse_no_action.
Qed.

Lemma AggregateTasks_counts_at_least_one_witness :
  let t := {| Tasks := [ {| Action := "" |}; {| Action := "a" |}; {| Action := "" |} ] |} in
  Z.of_nat (length (Tasks t)) <= max_int64 ∧
  AggregateTasks t
  = Some {| CountByAction := Some (<["" := 2]> (<["a" := 1]> ∅)) |} ∧
  ∃ (stats : AggregatedTaskStats) (m : gmap string Z),
    AggregateTasks t = Some stats ∧ CountByAction stats = Some m ∧
    (Z.of_nat (length (Tasks t)) <= max_int64 →
     (∀ a c, m !! a = Some c → 1 <= c) ∧
     (∀ task, task ∈ Tasks t → Action task = "" →
              m !! "" = Some (countOf "" (Tasks t)) ∧ 1 <= countOf "" (Tasks t))) ∧
    (∀ d members, unrecognized "action" members →
       decodeTaskResponse d zeroTaskResponse (Object members)
       = ({| Action := "" |}, d)).
Proof.
  intros t. split; [vm_compute; discriminate|].
  split; [vm_compute; reflexivity|].
  exact (AggregateTasks_counts_at_least_one t).
Defined.

(** ** The collection cycle *)

(** C2: for every cycle whose fetch fails, [Update] returns one error, which
    wraps the error of the fetch behind the text "failed to fetch and decode
    task stats", and no sample is sent: the events of the cycle are those of
    the fetch, none of them a send. *)
Theorem Update_wraps_fetch_failure (namespace actionFilter : string)
    (rangeOrder : list (string * Z) → list (string * Z))
    `{PathOps} `{Syntax} (t : TaskCollector)
    (stats : option AggregatedTaskStats) (err : error) (es : list event) :
  fetchAndDecodeAndAggregateTaskStats actionFilter t = ((stats, Some err), es) →
  ∃ err',
    Update namespace actionFilter rangeOrder t = (Returns (Some err'), es) ∧
    Unwrap err' = Some err ∧
    Error err' = "failed to fetch and decode task stats: " +:+ Error err ∧
    sent (Update namespace actionFilter rangeOrder t).2 = [].
Proof.
  intros Hf.
  exists (Errorf_w "failed to fetch and decode task stats: " err).
  rewrite (Update_fetch_error namespace actionFilter rangeOrder t stats err es Hf).
  repeat split.
  pose proof (fetch_shape actionFilter t) as [Hsent _].
  by rewrite Hf in Hsent.
Qed.

Lemma Update_wraps_fetch_failure_witness :
  let t := Sample.collector Sample.refuse in
  let err :=
    errorString
      ("failed to get data stream stats health from "
         +:+ "http://localhost:9200/_tasks: dial tcp: connection refused") in
  let es :=
    [EvGet "http://localhost:9200/_tasks?actions=indices%3A%2A&group_by=none"] in
  @fetchAndDecodeAndAggregateTaskStats defaultActionFilter
    Sample.pathOps Sample.syntax t = ((None, Some err), es) ∧
  ∃ err',
    @Update "elasticsearch" defaultActionFilter Sample.reversed
      Sample.pathOps Sample.syntax t = (Returns (Some err'), es) ∧
    Unwrap err' = Some err ∧
    Error err' = "failed to fetch and decode task stats: " +:+ Error err ∧
    sent (@Update "elasticsearch" defaultActionFilter Sample.reversed
            Sample.pathOps Sample.syntax t).2 = [].
Proof.
  intros t err es.
  assert (Hf : @fetchAndDecodeAndAggregateTaskStats defaultActionFilter
                 Sample.pathOps Sample.syntax t = ((None, Some err), es))
    by (vm_compute; reflexivity).
  split; [exact Hf|].
  exact (@Update_wraps_fetch_failure "elasticsearch" defaultActionFilter
           Sample.reversed Sample.pathOps Sample.syntax t None err es Hf).
Defined.

(** The samples of a cycle that went well, whatever the counts: one entry of
    the map each, in the order of the iteration. *)
Lemma Update_sent_ok (namespace actionFilter : string)
    (rangeOrder : list (string * Z) → list (string * Z))
    `{PathOps} `{Syntax} (t : TaskCollector) (res : Response)
    (bts : string) (tr : TasksResponse) :
  Get (hc t) (URL_String (requestURL actionFilter t)) = inl res →
  StatusCode res = StatusOK →
  ReadAll (Body res) = (bts, None) →
  Unmarshal bts zeroTasksResponse = (tr, None) →
  (Update namespace actionFilter rangeOrder t).1 = Returns None ∧
  sent (Update namespace actionFilter rangeOrder t).2
  = sampleFor namespace <$> rangeOrder (map_to_list (countsOf tr)).
Proof.
  intros HGet Hok Hread Hdec.
  pose proof (fetch_Get_ok actionFilter t res HGet) as Hf.
  rewrite (fetchBody_ok _ res bts tr Hok Hread Hdec) in Hf.
  cbn [fst snd] in Hf. rewrite AggregateTasks_countsOf in Hf.
  rewrite (Update_fetch_ok namespace actionFilter rangeOrder t _ _ Hf).
  cbn [fst snd CountByAction default]. split; [done|].
  change (EvGet ?x :: ?l) with ([EvGet x] ++ l)%list.
  rewrite !sent_app, sent_EvSend, deferredClose_events.
  destruct (Close (Body res)); done.
Qed.

(** The samples of a cycle that went well, for a snapshot of any length a
    slice can have: the value of a sample is its count converted to
    [float64]. *)
Lemma Update_sample_values (namespace actionFilter : string)
    (rangeOrder : list (string * Z) → list (string * Z))
    `{PathOps} `{Syntax} (t : TaskCollector) (res : Response)
    (bts : string) (tr : TasksResponse) :
  (∀ l, rangeOrder l ≡ₚ l) →
  Get (hc t) (URL_String (requestURL actionFilter t)) = inl res →
  StatusCode res = StatusOK →
  ReadAll (Body res) = (bts, None) →
  Unmarshal bts zeroTasksResponse = (tr, None) →
  Z.of_nat (length (Tasks tr)) <= max_int64 →
  let out := Update namespace actionFilter rangeOrder t in
  out.1 = Returns None ∧
  NoDup (labelValues <$> sent out.2) ∧
  (∀ a, [a] ∈ (labelValues <$> sent out.2) ↔
        ∃ task, task ∈ Tasks tr ∧ Action task = a) ∧
  (∀ m, m ∈ sent out.2 →
        ∃ a, m = {| desc := taskActionDesc namespace;
                    valType := GaugeValue;
                    val := float64_of_int64 (countOf a (Tasks tr));
                    labelValues := [a] |}
             ∧ 1 <= countOf a (Tasks tr) ∧ 0 < val m).
Proof.
  intros Hperm HGet Hok Hread Hdec Hlen out.
  destruct (Update_sent_ok namespace actionFilter rangeOrder t res bts tr
              HGet Hok Hread Hdec) as [Hret Hsent].
  subst out. rewrite Hsent. split; [done|].
  assert (Hentry : ∀ a c, (a, c) ∈ rangeOrder (map_to_list (countsOf tr)) ↔
                           c = countOf a (Tasks tr) ∧ 1 <= c).
  { intros a c. rewrite Hperm, elem_of_map_to_list.
    rewrite (countsOf_lookup_exact tr a Hlen).
    pose proof (countOf_nonneg a (Tasks tr)).
    case_decide; split; try done.
    - intros [-> ?]. lia.
    - intros [= <-]. split; [done|lia].
    - intros [-> ?]. done. }
  assert (Hlabels :
    labelValues <$> (sampleFor namespace <$> rangeOrder (map_to_list (countsOf tr)))
    = (λ a, [a]) <$> (rangeOrder (map_to_list (countsOf tr))).*1).
  { rewrite <- !list_fmap_compose. apply list_fmap_ext.
    intros _ [a c] _. reflexivity. }
  rewrite Hlabels. split; [|split].
  - apply NoDup_fmap_2; [by intros a b [= ->]|].
    rewrite Hperm. apply NoDup_fst_map_to_list.
  - intros a. rewrite list_elem_of_fmap. split.
    + intros (a' & [= <-] & Hin).
      apply list_elem_of_fmap in Hin as ([a'' c] & -> & Hin).
      apply Hentry in Hin as [-> Hc]. apply countOf_pos_iff. cbn. lia.
    + intros Hex. apply countOf_pos_iff in Hex.
      exists a. split; [done|]. apply list_elem_of_fmap.
      exists (a, countOf a (Tasks tr)). split; [done|].
      apply Hentry. split; [done|lia].
  - intros m Hm. apply list_elem_of_fmap in Hm as ([a c] & -> & Hin).
    apply Hentry in Hin as [-> Hc]. exists a.
    split; [done|]. split; [done|].
    cbn [sampleFor MustNewConstMetric val]. apply float64_of_int64_pos. lia.
Qed.

(** C3: for every cycle that goes well, the samples sent carry each a
    different action, the actions they carry are the actions that occur in
    the snapshot of the cycle, and each sample is a gauge of the descriptor
    whose value is the count of its action, never zero.  Nothing but the
    snapshot of the cycle enters.  The snapshot is one that memory can hold:
    up to [2 ^ 53] records, the range in which [float64] holds every
    count. *)
Theorem Update_sends_one_sample_per_action (namespace actionFilter : string)
    (rangeOrder : list (string * Z) → list (string * Z))
    `{PathOps} `{Syntax} (t : TaskCollector) (res : Response)
    (bts : string) (tr : TasksResponse) :
  (∀ l, rangeOrder l ≡ₚ l) →
  Get (hc t) (URL_String (requestURL actionFilter t)) = inl res →
  StatusCode res = StatusOK →
  ReadAll (Body res) = (bts, None) →
  Unmarshal bts zeroTasksResponse = (tr, None) →
  Z.of_nat (length (Tasks tr)) <= 2 ^ 53 →
  let out := Update namespace actionFilter rangeOrder t in
  out.1 = Returns None ∧
  NoDup (labelValues <$> sent out.2) ∧
  (∀ a, [a] ∈ (labelValues <$> sent out.2) ↔
        ∃ task, task ∈ Tasks tr ∧ Action task = a) ∧
  (∀ m, m ∈ sent out.2 →
        ∃ a, m = {| desc := taskActionDesc namespace;
                    valType := GaugeValue;
                    val := countOf a (Tasks tr);
                    labelValues := [a] |}
             ∧ 1 <= countOf a (Tasks tr)).
Proof.
  intros Hperm HGet Hok Hread Hdec Hlen out.
  assert (Hlen' : Z.of_nat (length (Tasks tr)) <= max_int64)
    by (unfold max_int64; lia).
  destruct (Update_sample_values namespace actionFilter rangeOrder t res bts tr
              Hperm HGet Hok Hread Hdec Hlen')
    as (Hret & Hnodup & Hlabels & Hsamples).
  subst out. repeat split; try done; try apply Hlabels.
  intros m Hm. destruct (Hsamples m Hm) as (a & -> & Hc & _).
  exists a. split; [|done]. f_equal.
  apply float64_of_int64_exact.
  pose proof (countOf_le_length a (Tasks tr)). lia.
Qed.

Lemma Update_sends_one_sample_per_action_witness :
  let t := Sample.collector (Sample.respond 200 Sample.okBody) in
  let out := @Update "elasticsearch" defaultActionFilter Sample.reversed
               Sample.pathOps Sample.syntax t in
  sent out.2
  = [ {| desc := taskActionDesc "elasticsearch"; valType := GaugeValue;
         val := 2; labelValues := ["indices:data/write/bulk"] |};
      {| desc := taskActionDesc "elasticsearch"; valType := GaugeValue;
         val := 1; labelValues := ["cluster:monitor/nodes/stats"] |} ] ∧
  out.1 = Returns None ∧
  NoDup (labelValues <$> sent out.2) ∧
  (∀ a, [a] ∈ (labelValues <$> sent out.2) ↔
        ∃ task, task ∈ Tasks Sample.tasks3 ∧ Action task = a) ∧
  (∀ m, m ∈ sent out.2 →
        ∃ a, m = {| desc := taskActionDesc "elasticsearch";
                    valType := GaugeValue;
                    val := countOf a (Tasks Sample.tasks3);
                    labelValues := [a] |}
             ∧ 1 <= countOf a (Tasks Sample.tasks3)).
Proof.
  intros t out. split; [vm_compute; reflexivity|].
  refine (@Update_sends_one_sample_per_action "elasticsearch"
            defaultActionFilter Sample.reversed Sample.pathOps Sample.syntax
            t {| StatusCode := 200; Body := Sample.okBody |} Sample.bodyText
            Sample.tasks3 _ _ _ _ _ _).
  - intros l. apply reverse_Permutation.
  - vm_compute; reflexivity.
  - vm_compute; reflexivity.
  - vm_compute; reflexivity.
  - vm_compute; reflexivity.
  - vm_compute; discriminate.
Defined.

(** C4: for every response with a status other than 200 the fetch fails
    with an error whose text holds the URL that was asked for and the status
    code; the body is not read, so nothing of it is parsed; it is closed; and
    the cycle ends in the wrapped error without a sample. *)
Theorem fetch_rejects_status_other_than_200 (namespace actionFilter : string)
    (rangeOrder : list (string * Z) → list (string * Z))
    `{PathOps} `{Syntax} (t : TaskCollector) (res : Response) :
  Get (hc t) (URL_String (requestURL actionFilter t)) = inl res →
  StatusCode res ≠ StatusOK →
  let rawurl := URL_String (requestURL actionFilter t) in
  let err :=
    errorString
      ("HTTP Request to " +:+ rawurl +:+ " failed with code "
         +:+ pretty (StatusCode res)) in
  ∃ es,
    fetchAndDecodeAndAggregateTaskStats actionFilter t
    = ((None, Some err), EvGet rawurl :: es) ∧
    (EvReadAll ∉ es) ∧ (EvClose ∈ es) ∧
    Update namespace actionFilter rangeOrder t
    = (Returns (Some (Errorf_w "failed to fetch and decode task stats: " err)),
       EvGet rawurl :: es) ∧
    sent (EvGet rawurl :: es) = [].
Proof.
  intros HGet Hstatus rawurl err.
  pose proof (fetch_Get_ok actionFilter t res HGet) as Hf.
  rewrite (fetchBody_status _ res Hstatus) in Hf. cbn [fst snd app] in Hf.
  exists (deferredClose t res).2. split; [exact Hf|].
  rewrite (Update_fetch_error namespace actionFilter rangeOrder t _ _ _ Hf).
  rewrite deferredClose_events.
  destruct (Close (Body res)); repeat split; try done;
    try (apply list_elem_of_here); intros Hin; absent_event Hin.
Qed.

Lemma fetch_rejects_status_other_than_200_witness :
  let t := Sample.collector (Sample.respond 503 Sample.okBody) in
  let rawurl := "http://localhost:9200/_tasks?actions=indices%3A%2A&group_by=none" in
  let err := errorString ("HTTP Request to " +:+ rawurl +:+ " failed with code 503") in
  ∃ es,
    @fetchAndDecodeAndAggregateTaskStats defaultActionFilter
      Sample.pathOps Sample.syntax t
    = ((None, Some err), EvGet rawurl :: es) ∧
    (EvReadAll ∉ es) ∧ (EvClose ∈ es) ∧
    @Update "elasticsearch" defaultActionFilter Sample.reversed
      Sample.pathOps Sample.syntax t
    = (Returns (Some (Errorf_w "failed to fetch and decode task stats: " err)),
       EvGet rawurl :: es) ∧
    sent (EvGet rawurl :: es) = [].
Proof.
  intros t rawurl err.
  refine (@fetch_rejects_status_other_than_200 "elasticsearch"
            defaultActionFilter Sample.reversed Sample.pathOps Sample.syntax
            t {| StatusCode := 503; Body := Sample.okBody |} _ _).
  - vm_compute; reflexivity.
  - vm_compute; discriminate.
Defined.



(** The request of the sample collector with the default filter. *)
Example request_default_filter :
  @URL_String Sample.pathOps
    (@requestURL defaultActionFilter Sample.pathOps (Sample.collector Sample.refuse))
  = "http://localhost:9200/_tasks?actions=indices%3A%2A&group_by=none".
Proof. vm_compute. reflexivity. Qed.

(** C8: on every path of the fetch, a failure to close the body changes
    neither the values the fetch returns nor the outcome and the samples of
    the cycle; all it adds, after a response came, is one warning in the
    log. *)
Theorem close_failure_leaves_result (namespace actionFilter : string)
    (rangeOrder : list (string * Z) → list (string * Z))
    `{PathOps} `{Syntax} (t : TaskCollector) (c c' : option error) (err : error) :
  (fetchAndDecodeAndAggregateTaskStats actionFilter (collectorWithClose c t)).1
  = (fetchAndDecodeAndAggregateTaskStats actionFilter (collectorWithClose c' t)).1 ∧
  (Update namespace actionFilter rangeOrder (collectorWithClose c t)).1
  = (Update namespace actionFilter rangeOrder (collectorWithClose c' t)).1 ∧
  sent (Update namespace actionFilter rangeOrder (collectorWithClose c t)).2
  = sent (Update namespace actionFilter rangeOrder (collectorWithClose c' t)).2 ∧
  (fetchAndDecodeAndAggregateTaskStats actionFilter
     (collectorWithClose (Some err) t)).2
  = ((fetchAndDecodeAndAggregateTaskStats actionFilter
        (collectorWithClose None t)).2
     ++ match Get (hc t) (URL_String (requestURL actionFilter t)) with
        | inl _ =>
            [EvLog (logger t)
               [("level", "warn"); ("msg", "failed to close http.Client");
                ("err", Error err)]]
        | inr _ => []
        end)%list.
Proof.
  assert (Hfetch : ∀ c0,
    fetchAndDecodeAndAggregateTaskStats actionFilter (collectorWithClose c0 t)
    = match Get (hc t) (URL_String (requestURL actionFilter t)) with
      | inl res =>
          ((fetchBody (requestURL actionFilter t) res).1,
           EvGet (URL_String (requestURL actionFilter t))
             :: ((fetchBody (requestURL actionFilter t) res).2
                   ++ EvClose ::
                      match c0 with
                      | Some e =>
                          [EvLog (logger t)
                             [("level", "warn");
                              ("msg", "failed to close http.Client");
                              ("err", Error e)]]
                      | None => []
                      end)%list)
      | inr e =>
          ((None,
            Some (errorString
                    ("failed to get data stream stats health from "
                       +:+ Scheme (requestURL actionFilter t) +:+ "://"
                       +:+ Hostname (requestURL actionFilter t) +:+ ":"
                       +:+ Port (requestURL actionFilter t)
                       +:+ Path (requestURL actionFilter t) +:+ ": "
                       +:+ Error e))),
           [EvGet (URL_String (requestURL actionFilter t))])
      end).
  { intros c0.
    destruct (Get (hc t) (URL_String (requestURL actionFilter t)))
      as [res|e] eqn:HGet.
    - rewrite (fetch_Get_ok actionFilter (collectorWithClose c0 t) (withClose c0 res))
        by (cbn; change (requestURL actionFilter (collectorWithClose c0 t))
              with (requestURL actionFilter t); by rewrite HGet).
      rewrite deferredClose_events. reflexivity.
    - rewrite (fetch_Get_error actionFilter (collectorWithClose c0 t) e)
        by (cbn; change (requestURL actionFilter (collectorWithClose c0 t))
              with (requestURL actionFilter t); by rewrite HGet).
      reflexivity. }
  assert (Hupdate : ∀ c0,
    (Update namespace actionFilter rangeOrder (collectorWithClose c0 t)).1
    = (Update namespace actionFilter rangeOrder (collectorWithClose None t)).1 ∧
    sent (Update namespace actionFilter rangeOrder (collectorWithClose c0 t)).2
    = sent (Update namespace actionFilter rangeOrder (collectorWithClose None t)).2).
  { intros c0. unfold Update, bind. rewrite !Hfetch.
    destruct (Get (hc t) (URL_String (requestURL actionFilter t))) as [res|e];
      [|done].
    destruct (fetchBody (requestURL actionFilter t) res) as [[stats [e|]] es];
      cbn [fst snd].
    - cbn. rewrite !app_nil_r.
      change (EvGet ?x :: ?l) with ([EvGet x] ++ l)%list.
      rewrite !sent_app. destruct c0; done.
    - destruct stats as [stats|]; cbn.
      + rewrite !emitSamples_events. cbn. rewrite !app_nil_r.
        change (EvGet ?x :: ?l) with ([EvGet x] ++ l)%list.
        rewrite !sent_app. destruct c0; done.
      + rewrite !app_nil_r.
        change (EvGet ?x :: ?l) with ([EvGet x] ++ l)%list.
        rewrite !sent_app. destruct c0; done. }
  split; [|split; [|split]].
  - rewrite !Hfetch. by destruct (Get (hc t) _).
  - destruct (Hupdate c) as [-> _]. by destruct (Hupdate c') as [-> _].
  - destruct (Hupdate c) as [_ ->]. by destruct (Hupdate c') as [_ ->].
  - rewrite !Hfetch. destruct (Get (hc t) _) as [res|e]; [|done].
    cbn [snd]. rewrite <- app_comm_cons, <- app_assoc. reflexivity.
Qed.


(** A cycle of the sample collector whose body fails to close: the samples
    are those of the cycle that closes it, and the log has the warning. *)
Example close_failure_cycle :
  let failing := {| ReadAll := (Sample.bodyText, None);
                    Close := Some (errorString "close failed") |} in
  let out := @Update "elasticsearch" defaultActionFilter Sample.reversed
               Sample.pathOps Sample.syntax
               (Sample.collector (Sample.respond 200 failing)) in
  out.1 = Returns None ∧
  sent out.2
  = sent (@Update "elasticsearch" defaultActionFilter Sample.reversed
            Sample.pathOps Sample.syntax
            (Sample.collector (Sample.respond 200 Sample.okBody))).2 ∧
  EvLog {| sink := "stderr" |}
    [("level", "warn"); ("msg", "failed to close http.Client");
     ("err", "close failed")] ∈ out.2.
Proof.
  repeat split; [vm_compute; reflexivity..|].
  vm_compute. do 3 apply list_elem_of_further. apply list_elem_of_here.
Qed.

(** ** The decoder *)

(** A member named [Action] is not the member [action], yet it is a value
    for the field: [encoding/json] matches member names to fields by the exact
    name or, failing that, without regard to case.  Its number is no string,
    so the body is a decode error and the cycle sends nothing, although the
    task carries a well-formed [action]. *)
Lemma Unmarshal_rejects_member_named_Action :
  let t := Sample.collector (Sample.respond 200 Sample.caseBody) in
  let err := UnmarshalTypeError "number" "TaskResponse" "tasks.action" "string" in
  "Action" ≠ "action" ∧
  @parse Sample.syntax Sample.caseText
  = inl (Object [("tasks",
                  Array [Object [("action", String_ "a"); ("Action", Number "7")]])]) ∧
  (@Unmarshal Sample.syntax Sample.caseText zeroTasksResponse).2 = Some err ∧
  Error err
  = "json: cannot unmarshal number into Go struct field TaskResponse.tasks.action of type string" ∧
  (@Update "elasticsearch" defaultActionFilter Sample.reversed
     Sample.pathOps Sample.syntax t).1
  = Returns (Some (Errorf_w "failed to fetch and decode task stats: " err)) ∧
  sent (@Update "elasticsearch" defaultActionFilter Sample.reversed
          Sample.pathOps Sample.syntax t).2 = [].
Proof.
  intros t err. split; [discriminate|].
  repeat split; vm_compute; reflexivity.
Qed.

(** C7, as the code has it: for every well-formed body, the members of the
    response whose names do not select [tasks] and the members of a task
    object whose names do not select [action] are ignored: decoding the
    document is decoding it without them.  A body whose task objects carry
    such members beside a string [action] decodes without an error to one
    record per object, and each record is counted under its action.  A name
    selects a field when it is the name of the field, exactly or without
    regard to case. *)
Theorem Unmarshal_ignores_unselected_members `{Syntax} (bts : string)
    (before : list (string * value))
    (recs : list (list (string * value) * string * list (string * value)))
    (after : list (string * value)) :
  parse bts = inl (responseObject before recs after) →
  unrecognized "tasks" before → unrecognized "tasks" after →
  Forall (λ rec, unrecognized "action" rec.1.1 ∧ unrecognized "action" rec.2) recs →
  Z.of_nat (length recs) <= max_int64 →
  let tr := {| Tasks := (λ rec, {| Action := rec.1.2 |}) <$> recs |} in
  Unmarshal bts zeroTasksResponse = (tr, None) ∧
  (∀ rec, rec ∈ recs →
          countsOf tr !! rec.1.2 = Some (countOf rec.1.2 (Tasks tr)) ∧
          1 <= countOf rec.1.2 (Tasks tr)) ∧
  (∀ d cur j,
     decodeTasksResponse d cur (prune j) = decodeTasksResponse d cur j) ∧
  (∀ bts1 bts2 j tr0,
     parse bts1 = inl j → parse bts2 = inl (prune j) →
     Unmarshal bts1 tr0 = Unmarshal bts2 tr0).
Proof.
  intros Hparse Hb Ha Hrecs Hlen tr. split; [|split; [|split]].
  - unfold Unmarshal. rewrite Hparse.
    rewrite decodeTasksResponse_responseObject by done. reflexivity.
  - intros rec Hin.
    assert (Hlen' : Z.of_nat (length (Tasks tr)) <= max_int64)
      by (subst tr; cbn [Tasks]; by rewrite length_fmap).
    assert (Hpos : 0 < countOf rec.1.2 (Tasks tr)).
    { apply countOf_pos_iff. exists {| Action := rec.1.2 |}. split; [|done].
      subst tr. cbn [Tasks]. apply list_elem_of_fmap. eauto. }
    rewrite (countsOf_lookup_exact tr _ Hlen').
    case_decide; [lia|]. split; [done|lia].
  - intros d cur j. apply decodeTasksResponse_prune.
  - intros bts1 bts2 j tr0 H1 H2. unfold Unmarshal. rewrite H1, H2.
    by rewrite decodeTasksResponse_prune.
Qed.

Lemma Unmarshal_ignores_unselected_members_witness :
  @Unmarshal Sample.syntax Sample.bodyText zeroTasksResponse
  = (Sample.tasks3, None) ∧
  (∀ rec, rec ∈ Sample.bodyRecords →
          countsOf Sample.tasks3 !! rec.1.2
          = Some (countOf rec.1.2 (Tasks Sample.tasks3)) ∧
          1 <= countOf rec.1.2 (Tasks Sample.tasks3)) ∧
  (∀ d cur j,
     decodeTasksResponse d cur (prune j) = decodeTasksResponse d cur j) ∧
  (∀ bts1 bts2 j tr0,
     @parse Sample.syntax bts1 = inl j →
     @parse Sample.syntax bts2 = inl (prune j) →
     @Unmarshal Sample.syntax bts1 tr0 = @Unmarshal Sample.syntax bts2 tr0).
Proof.
  refine (@Unmarshal_ignores_unselected_members Sample.syntax Sample.bodyText
            [("nodes", Object [])] Sample.bodyRecords [] _ _ _ _ _).
  - vm_compute; reflexivity.
  - repeat constructor.
  - constructor.
  - repeat constructor.
  - vm_compute; discriminate.
Defined.

(** * Further properties *)

(** ** Totals and merges of counts *)

Section total_facts.

Implicit Types (m : gmap string Z).

Lemma totalCount_empty : totalCount ∅ = 0.
Proof. unfold totalCount. apply map_fold_empty. Qed.

Lemma totalCount_insert_fresh m k v :
  m !! k = None → totalCount (<[k := v]> m) = v + totalCount m.
Proof.
  intros Hk. unfold totalCount.
  apply (map_fold_insert_L (λ _ count acc, count + acc)); [|done].
  intros. lia.
Qed.

Lemma totalCount_delete m k v :
  m !! k = Some v → totalCount m = v + totalCount (delete k m).
Proof.
  intros Hk. rewrite <- (insert_delete_id m k v Hk) at 1.
  apply totalCount_insert_fresh, lookup_delete_eq.
Qed.

Lemma totalCount_nonneg m :
  (∀ k v, m !! k = Some v → 0 <= v) → 0 <= totalCount m.
Proof.
  induction m as [|k v m Hk _ IH] using map_first_key_ind; intros Hnn.
  - by rewrite totalCount_empty.
  - rewrite totalCount_insert_fresh by done.
    assert (0 <= v) by (apply (Hnn k); apply lookup_insert_eq).
    assert (0 <= totalCount m); [|lia].
    apply IH. intros k' v' Hk'. apply (Hnn k').
    rewrite lookup_insert_ne; [done|]. intros ->. congruence.
Qed.

(** What one round of the loop reads and what it adds, as long as the total
    stays an [int64]. *)
Lemma totalCount_incrAction m task :
  (∀ k v, m !! k = Some v → 0 <= v) →
  totalCount m + 1 <= max_int64 →
  totalCount (incrAction m task) = totalCount m + 1 ∧
  (∀ k v, incrAction m task !! k = Some v → 0 <= v).
Proof.
  intros Hnn Hmax. unfold incrAction, int64_add.
  set (k := Action task).
  assert (Hold : 0 <= default 0 (m !! k) ∧
                 totalCount m = default 0 (m !! k) + totalCount (delete k m)).
  { destruct (m !! k) as [v|] eqn:Hk; cbn [default].
    - split; [by apply (Hnn k)|]. unfold id. by apply totalCount_delete.
    - split; [done|]. rewrite delete_id by done. lia. }
  destruct Hold as [Hold Htot].
  assert (Hrest : 0 <= totalCount (delete k m)).
  { apply totalCount_nonneg. intros k' v'.
    rewrite lookup_delete. case_decide; [done|]. apply Hnn. }
  rewrite wrap64_small by (unfold min_int64; lia). split.
  - rewrite <- insert_delete_eq.
    rewrite totalCount_insert_fresh by apply lookup_delete_eq. lia.
  - intros k' v'. rewrite lookup_insert. case_decide.
    + intros [= <-]. lia.
    + apply Hnn.
Qed.

Lemma totalCount_foldl_incrAction (l : list TaskResponse) m :
  (∀ k v, m !! k = Some v → 0 <= v) →
  totalCount m + Z.of_nat (length l) <= max_int64 →
  totalCount (foldl incrAction m l) = totalCount m + Z.of_nat (length l).
Proof.
  revert m. induction l as [|task l IH]; intros m Hnn Hmax.
  - cbn. lia.
  - cbn [foldl length] in *.
    destruct (totalCount_incrAction m task Hnn) as [Hstep Hnn']; [lia|].
    rewrite IH by (done || lia). lia.
Qed.

Lemma countOf_app a (l1 l2 : list TaskResponse) :
  countOf a (l1 ++ l2) = countOf a l1 + countOf a l2.
Proof.
  unfold countOf, recordsWith. rewrite filter_app, length_app. lia.
Qed.

Lemma countsOf_dom (t : TasksResponse) :
  dom (countsOf t) = list_to_set (Action <$> Tasks t).
Proof.
  apply set_eq. intros a.
  rewrite elem_of_dom, elem_of_list_to_set, list_elem_of_fmap.
  rewrite countsOf_lookup.
  pose proof (countOf_pos_iff a (Tasks t)) as Hpos.
  pose proof (countOf_nonneg a (Tasks t)) as Hnn.
  case_decide as Hc; split.
  - intros [? ?]. done.
  - intros (task & -> & Hin).
    assert (0 < countOf (Action task) (Tasks t)); [|lia].
    apply Hpos. eauto.
  - intros _. destruct Hpos as [Hpos _].
    destruct Hpos as (task & Hin & Ha); [lia|]. eauto.
  - eauto.
Qed.

Lemma size_list_to_set_le (l : list string) :
  (size (list_to_set l : gset string) <= length l)%nat.
Proof.
  induction l as [|a l IH]; [done|].
  cbn [list_to_set length]. rewrite size_union_alt, size_singleton.
  assert (size (list_to_set l ∖ {[a]} : gset string)
          ≤ size (list_to_set l : gset string))%nat
    by (apply subseteq_size, subseteq_difference_l; done).
  lia.
Qed.

Lemma countsOf_size (t : TasksResponse) :
  size (countsOf t) = size (list_to_set (Action <$> Tasks t) : gset string) ∧
  (size (countsOf t) <= length (Tasks t))%nat.
Proof.
  rewrite <- (size_dom (D := gset string)), countsOf_dom.
  split; [done|]. rewrite <- (length_fmap Action (Tasks t)).
  apply size_list_to_set_le.
Qed.

End total_facts.

(** X1: the counts of the map add up to the number of records of the
    snapshot. *)
Theorem AggregateTasks_total (t : TasksResponse) :
  Z.of_nat (length (Tasks t)) <= max_int64 →
  ∃ m : gmap string Z,
    AggregateTasks t = Some {| CountByAction := Some m |} ∧
    totalCount m = Z.of_nat (length (Tasks t)).
Proof.
  intros Hlen. exists (countsOf t). split; [apply AggregateTasks_countsOf|].
  unfold countsOf. rewrite totalCount_foldl_incrAction.
  - rewrite totalCount_empty. lia.
  - intros k v. by rewrite lookup_empty.
  - rewrite totalCount_empty. lia.
Qed.

Lemma AggregateTasks_total_witness :
  Z.of_nat (length (Tasks Sample.tasks3)) <= max_int64 ∧
  ∃ m : gmap string Z,
    AggregateTasks Sample.tasks3 = Some {| CountByAction := Some m |} ∧
    totalCount m = Z.of_nat (length (Tasks Sample.tasks3)).
Proof.
  assert (Hlen : Z.of_nat (length (Tasks Sample.tasks3)) <= max_int64)
    by (vm_compute; discriminate).
  split; [exact Hlen|]. exact (AggregateTasks_total Sample.tasks3 Hlen).
Defined.

(** X2: aggregating two snapshots one after the other is merging their two
    maps, the counts of an action in both added. *)
Theorem AggregateTasks_app (l1 l2 : list TaskResponse) :
  Z.of_nat (length (l1 ++ l2)) <= max_int64 →
  AggregateTasks {| Tasks := l1 ++ l2 |}
  = Some {| CountByAction :=
              Some (addCounts (countsOf {| Tasks := l1 |})
                      (countsOf {| Tasks := l2 |})) |}.
Proof.
  intros Hlen. rewrite AggregateTasks_countsOf. do 3 f_equal.
  rewrite length_app in Hlen.
  apply map_eq. intros a. unfold addCounts. rewrite lookup_union_with.
  rewrite !countsOf_lookup_exact by (cbn [Tasks]; rewrite ?length_app; lia).
  cbn [Tasks]. rewrite countOf_app.
  pose proof (countOf_nonneg a l1). pose proof (countOf_nonneg a l2).
  repeat case_decide; cbn; try lia; try done; f_equal; lia.
Qed.

Lemma AggregateTasks_app_witness :
  let l1 := [ {| Action := "a" |}; {| Action := "b" |} ] in
  let l2 := [ {| Action := "b" |}; {| Action := "c" |} ] in
  Z.of_nat (length (l1 ++ l2)) <= max_int64 ∧
  addCounts (countsOf {| Tasks := l1 |}) (countsOf {| Tasks := l2 |})
  = <["a" := 1]> (<["b" := 2]> (<["c" := 1]> ∅)) ∧
  AggregateTasks {| Tasks := l1 ++ l2 |}
  = Some {| CountByAction :=
              Some (addCounts (countsOf {| Tasks := l1 |})
                      (countsOf {| Tasks := l2 |})) |}.
Proof.
  intros l1 l2.
  assert (Hlen : Z.of_nat (length (l1 ++ l2)) <= max_int64)
    by (vm_compute; discriminate).
  split; [exact Hlen|]. split; [vm_compute; reflexivity|].
  exact (AggregateTasks_app l1 l2 Hlen).
Defined.

(** X3: the keys of the map are the actions of the records, so the map has
    at most as many entries as the snapshot has records; this holds for
    snapshots of any length. *)
Theorem AggregateTasks_keys (t : TasksResponse) :
  ∃ m : gmap string Z,
    AggregateTasks t = Some {| CountByAction := Some m |} ∧
    dom m = list_to_set (Action <$> Tasks t) ∧
    (size m <= length (Tasks t))%nat.
Proof.
  exists (countsOf t). split; [apply AggregateTasks_countsOf|].
  split; [apply countsOf_dom|apply countsOf_size].
Qed.

(** ** Paths of a cycle *)

Section cycle_facts.

Variable namespace : string.
Variable actionFilter : string.
Variable rangeOrder : list (string * Z) → list (string * Z).
Context `{PathOps} `{Syntax}.

Lemma fetchBody_events u res :
  (fetchBody u res).2 = if decide (StatusCode res ≠ StatusOK) then [] else [EvReadAll].
Proof.
  unfold fetchBody. case_decide; [done|].
  destruct (ReadAll (Body res)) as [bts [err|]]; [done|].
  destruct (Unmarshal bts zeroTasksResponse) as [tr [err|]]; done.
Qed.

(** The events of [Update]: those of the fetch, then the sends. *)
Lemma Update_events t :
  (Update namespace actionFilter rangeOrder t).2 =
  ((fetchAndDecodeAndAggregateTaskStats actionFilter t).2
   ++ ((λ entry, EvSend (sampleFor namespace entry))
         <$> match (fetchAndDecodeAndAggregateTaskStats actionFilter t).1 with
             | (Some stats, None) =>
                 rangeOrder (map_to_list (default ∅ (CountByAction stats)))
             | _ => []
             end))%list.
Proof.
  destruct (fetchAndDecodeAndAggregateTaskStats actionFilter t)
    as [[stats [err|]] es] eqn:Hf.
  - rewrite (Update_fetch_error _ _ _ _ _ _ _ Hf). cbn.
    destruct stats; cbn; by rewrite app_nil_r.
  - destruct stats as [stats|].
    + by rewrite (Update_fetch_ok _ _ _ _ _ _ Hf).
    + unfold Update, bind. rewrite Hf. cbn. by rewrite ?app_nil_r.
Qed.

End cycle_facts.

(** X4: a fetch returns either an error and no statistics, or statistics
    with a map and no error, never both and never neither; so [Update], which
    reads the statistics only when the error is [nil], never panics. *)
Theorem fetch_returns_stats_or_error (namespace actionFilter : string)
    (rangeOrder : list (string * Z) → list (string * Z))
    `{PathOps} `{Syntax} (t : TaskCollector) :
  ((∃ err, (fetchAndDecodeAndAggregateTaskStats actionFilter t).1
           = (None, Some err)) ∨
   (∃ stats m, (fetchAndDecodeAndAggregateTaskStats actionFilter t).1
               = (Some stats, None) ∧ CountByAction stats = Some m)) ∧
  ∃ err, (Update namespace actionFilter rangeOrder t).1 = Returns err.
Proof.
  split; [|apply Update_returns].
  destruct (fetch_shape actionFilter t) as [_ [[err Herr]|[tr Htr]]].
  - left. eauto.
  - right. rewrite AggregateTasks_countsOf in Htr. eauto.
Qed.

(** X5: when the request itself fails, the fetch returns an error whose
    text names the scheme, the host and the port of the base URL, the path of
    the request and the cause; nothing is read, closed or logged, and the
    cycle ends in that error, wrapped, without a sample. *)
Theorem fetch_reports_failed_request (namespace actionFilter : string)
    (rangeOrder : list (string * Z) → list (string * Z))
    `{PathOps} `{Syntax} (t : TaskCollector) (cause : error) :
  Get (hc t) (URL_String (requestURL actionFilter t)) = inr cause →
  let r := requestURL actionFilter t in
  let err :=
    errorString
      ("failed to get data stream stats health from "
         +:+ Scheme (u t) +:+ "://" +:+ Hostname (u t) +:+ ":" +:+ Port (u t)
         +:+ Path r +:+ ": " +:+ Error cause) in
  fetchAndDecodeAndAggregateTaskStats actionFilter t
  = ((None, Some err), [EvGet (URL_String r)]) ∧
  Update namespace actionFilter rangeOrder t
  = (Returns (Some (Errorf_w "failed to fetch and decode task stats: " err)),
     [EvGet (URL_String r)]).
Proof.
  intros HGet r err.
  assert (Hf : fetchAndDecodeAndAggregateTaskStats actionFilter t
               = ((None, Some err), [EvGet (URL_String r)])).
  { rewrite (fetch_Get_error actionFilter t cause HGet). subst err r.
    unfold Hostname, Port, requestURL. cbn [Scheme Host with_RawQuery].
    rewrite ResolveReference_tasks, Scheme_setPath, Host_setPath. reflexivity. }
  split; [exact Hf|].
  exact (Update_fetch_error namespace actionFilter rangeOrder t _ _ _ Hf).
Qed.

Lemma fetch_reports_failed_request_witness :
  let t := Sample.collector Sample.refuse in
  let rawurl := "http://localhost:9200/_tasks?actions=indices%3A%2A&group_by=none" in
  let err :=
    errorString
      ("failed to get data stream stats health from "
         +:+ "http://localhost:9200/_tasks: dial tcp: connection refused") in
  @fetchAndDecodeAndAggregateTaskStats defaultActionFilter
    Sample.pathOps Sample.syntax t
  = ((None, Some err), [EvGet rawurl]) ∧
  @Update "elasticsearch" defaultActionFilter Sample.reversed
    Sample.pathOps Sample.syntax t
  = (Returns (Some (Errorf_w "failed to fetch and decode task stats: " err)),
     [EvGet rawurl]).
Proof.
  intros t rawurl err.
  refine (@fetch_reports_failed_request "elasticsearch" defaultActionFilter
            Sample.reversed Sample.pathOps Sample.syntax t
            (ExternalError "net.OpError" "dial tcp: connection refused") _).
  vm_compute; reflexivity.
Defined.

Section host_facts.

Import url.

Lemma lastIndexByte_None c s : Contains c s = false → lastIndexByte c s = None.
Proof.
  induction s as [|x s IH]; [done|]. cbn [Contains lastIndexByte].
  intros [Hx Hs]%orb_false_iff. by rewrite IH, Hx.
Qed.

(** A host without a colon and without brackets is all host name and no
    port. *)
Lemma splitHostPort_portless host :
  Contains ":" host = false → hasPrefixByte "[" host = false →
  splitHostPort host = (host, EmptyString).
Proof.
  intros Hcolon Hbracket. unfold splitHostPort.
  by rewrite (lastIndexByte_None _ _ Hcolon), Hbracket.
Qed.

End host_facts.

(** X6: when the request fails and the host of the base URL names no port,
    the text of the error still puts a colon behind the host: the path follows
    the colon directly. *)
Theorem failed_request_text_without_port (actionFilter : string)
    `{PathOps} `{Syntax} (t : TaskCollector) (cause : error) :
  Get (hc t) (URL_String (requestURL actionFilter t)) = inr cause →
  Contains ":" (Host (u t)) = false →
  hasPrefixByte "[" (Host (u t)) = false →
  ∃ err,
    (fetchAndDecodeAndAggregateTaskStats actionFilter t).1 = (None, Some err) ∧
    Error err
    = "failed to get data stream stats health from "
        +:+ Scheme (u t) +:+ "://" +:+ Host (u t) +:+ ":"
        +:+ Path (requestURL actionFilter t) +:+ ": " +:+ Error cause.
Proof.
  intros HGet Hcolon Hbracket.
  rewrite (fetch_Get_error actionFilter t cause HGet). cbn [fst].
  eexists. split; [reflexivity|]. cbn [Error].
  unfold Hostname, Port, requestURL at 1 2 3. cbn [Scheme Host with_RawQuery].
  rewrite ResolveReference_tasks, Scheme_setPath, Host_setPath.
  cbn [Scheme Host with_User with_Host with_Scheme].
  rewrite (splitHostPort_portless _ Hcolon Hbracket). reflexivity.
Qed.

Lemma failed_request_text_without_port_witness :
  ∃ err,
    (@fetchAndDecodeAndAggregateTaskStats defaultActionFilter
       Sample.pathOps Sample.syntax (SampleMore.portless Sample.refuse)).1
    = (None, Some err) ∧
    Error err
    = "failed to get data stream stats health from "
        +:+ "http" +:+ "://" +:+ "localhost" +:+ ":"
        +:+ "/_tasks" +:+ ": " +:+ "dial tcp: connection refused".
Proof.
  refine (@failed_request_text_without_port defaultActionFilter
            Sample.pathOps Sample.syntax (SampleMore.portless Sample.refuse)
            (ExternalError "net.OpError" "dial tcp: connection refused") _ _ _);
    vm_compute; reflexivity.
Defined.

(** X7: when reading the body fails, the fetch returns the error of the
    read as it is, without a text of its own; what was read before the failure
    is not decoded; the body is closed; and the cycle ends in that error,
    wrapped, without a sample. *)
Theorem fetch_returns_read_error (namespace actionFilter : string)
    (rangeOrder : list (string * Z) → list (string * Z))
    `{PathOps} `{Syntax} (t : TaskCollector) (res : Response)
    (bts : string) (err : error) :
  Get (hc t) (URL_String (requestURL actionFilter t)) = inl res →
  StatusCode res = StatusOK →
  ReadAll (Body res) = (bts, Some err) →
  let es :=
    (EvGet (URL_String (requestURL actionFilter t)) :: EvReadAll
       :: (deferredClose t res).2) in
  fetchAndDecodeAndAggregateTaskStats actionFilter t = ((None, Some err), es) ∧
  Update namespace actionFilter rangeOrder t
  = (Returns (Some (Errorf_w "failed to fetch and decode task stats: " err)), es) ∧
  EvClose ∈ es ∧ sent es = [].
Proof.
  intros HGet Hok Hread es.
  assert (Hf : fetchAndDecodeAndAggregateTaskStats actionFilter t
               = ((None, Some err), es)).
  { rewrite (fetch_Get_ok actionFilter t res HGet).
    by rewrite (fetchBody_read_error _ res bts err Hok Hread). }
  split; [exact Hf|].
  split; [exact (Update_fetch_error namespace actionFilter rangeOrder t _ _ _ Hf)|].
  subst es. rewrite deferredClose_events. split.
  - do 2 apply list_elem_of_further. apply list_elem_of_here.
  - by destruct (Close (Body res)).
Qed.

Lemma fetch_returns_read_error_witness :
  let t := Sample.collector (Sample.respond 200 SampleMore.brokenBody) in
  let err := ExternalError "io" "unexpected EOF" in
  let es :=
    [EvGet "http://localhost:9200/_tasks?actions=indices%3A%2A&group_by=none";
     EvReadAll; EvClose] in
  @fetchAndDecodeAndAggregateTaskStats defaultActionFilter
    Sample.pathOps Sample.syntax t = ((None, Some err), es) ∧
  @Update "elasticsearch" defaultActionFilter Sample.reversed
    Sample.pathOps Sample.syntax t
  = (Returns (Some (Errorf_w "failed to fetch and decode task stats: " err)), es) ∧
  EvClose ∈ es ∧ sent es = [].
Proof.
  intros t err es.
  refine (@fetch_returns_read_error "elasticsearch" defaultActionFilter
            Sample.reversed Sample.pathOps Sample.syntax t
            {| StatusCode := 200; Body := SampleMore.brokenBody |} "{" err _ _ _);
    vm_compute; reflexivity.
Defined.

(** X8: when the body does not decode, the fetch returns the error of
    [json.Unmarshal] as it is; the records decoded before the error are
    neither counted nor sent; the body is closed; and the cycle ends in that
    error, wrapped. *)
Theorem fetch_returns_decode_error (namespace actionFilter : string)
    (rangeOrder : list (string * Z) → list (string * Z))
    `{PathOps} `{Syntax} (t : TaskCollector) (res : Response)
    (bts : string) (tr : TasksResponse) (err : error) :
  Get (hc t) (URL_String (requestURL actionFilter t)) = inl res →
  StatusCode res = StatusOK →
  ReadAll (Body res) = (bts, None) →
  Unmarshal bts zeroTasksResponse = (tr, Some err) →
  let es :=
    (EvGet (URL_String (requestURL actionFilter t)) :: EvReadAll
       :: (deferredClose t res).2) in
  fetchAndDecodeAndAggregateTaskStats actionFilter t = ((None, Some err), es) ∧
  Update namespace actionFilter rangeOrder t
  = (Returns (Some (Errorf_w "failed to fetch and decode task stats: " err)), es) ∧
  EvClose ∈ es ∧ sent es = [].
Proof.
  intros HGet Hok Hread Hdec es.
  assert (Hf : fetchAndDecodeAndAggregateTaskStats actionFilter t
               = ((None, Some err), es)).
  { rewrite (fetch_Get_ok actionFilter t res HGet).
    by rewrite (fetchBody_decode_error _ res bts tr err Hok Hread Hdec). }
  split; [exact Hf|].
  split; [exact (Update_fetch_error namespace actionFilter rangeOrder t _ _ _ Hf)|].
  subst es. rewrite deferredClose_events. split.
  - do 2 apply list_elem_of_further. apply list_elem_of_here.
  - by destruct (Close (Body res)).
Qed.

(** The body of [Sample] whose task has a number for [Action]: the record
    with the action [a] is decoded and then dropped with the error. *)
Lemma fetch_returns_decode_error_witness :
  let t := Sample.collector (Sample.respond 200 Sample.caseBody) in
  let err := json.UnmarshalTypeError "number" "TaskResponse" "tasks.action" "string" in
  let es :=
    [EvGet "http://localhost:9200/_tasks?actions=indices%3A%2A&group_by=none";
     EvReadAll; EvClose] in
  @Unmarshal Sample.syntax Sample.caseText zeroTasksResponse
  = ({| Tasks := [ {| Action := "a" |} ] |}, Some err) ∧
  @fetchAndDecodeAndAggregateTaskStats defaultActionFilter
    Sample.pathOps Sample.syntax t = ((None, Some err), es) ∧
  @Update "elasticsearch" defaultActionFilter Sample.reversed
    Sample.pathOps Sample.syntax t
  = (Returns (Some (Errorf_w "failed to fetch and decode task stats: " err)), es) ∧
  EvClose ∈ es ∧ sent es = [].
Proof.
  intros t err es. split; [vm_compute; reflexivity|].
  refine (@fetch_returns_decode_error "elasticsearch" defaultActionFilter
            Sample.reversed Sample.pathOps Sample.syntax t
            {| StatusCode := 200; Body := Sample.caseBody |} Sample.caseText
            {| Tasks := [ {| Action := "a" |} ] |} err _ _ _ _);
    vm_compute; reflexivity.
Defined.

Lemma not_elem_of_sends (namespace : string) (e : event) (l : list (string * Z)) :
  (∀ m, e ≠ EvSend m) →
  e ∉ ((λ entry, EvSend (sampleFor namespace entry)) <$> l).
Proof.
  intros Hne Hin. apply list_elem_of_fmap in Hin as (entry & -> & _).
  by apply (Hne (sampleFor namespace entry)).
Qed.

(** X9: in every cycle that got a response the body is closed exactly once,
    whatever the status and whether reading and decoding went well; the close
    comes after the read and before every send.  In a cycle whose request
    failed nothing is closed. *)
Theorem body_closed_exactly_once (namespace actionFilter : string)
    (rangeOrder : list (string * Z) → list (string * Z))
    `{PathOps} `{Syntax} (t : TaskCollector) :
  match Get (hc t) (URL_String (requestURL actionFilter t)) with
  | inl res =>
      ∃ pre post,
        (Update namespace actionFilter rangeOrder t).2
        = (EvGet (URL_String (requestURL actionFilter t))
             :: pre ++ EvClose :: post)%list ∧
        (EvClose ∉ pre) ∧ (EvClose ∉ post) ∧
        (∀ m, EvSend m ∉ pre) ∧ (EvReadAll ∉ post)
  | inr _ => EvClose ∉ (Update namespace actionFilter rangeOrder t).2
  end.
Proof.
  rewrite Update_events.
  destruct (Get (hc t) (URL_String (requestURL actionFilter t)))
    as [res|cause] eqn:HGet.
  - rewrite (fetch_Get_ok actionFilter t res HGet). cbn [fst snd].
    rewrite deferredClose_events.
    eexists (fetchBody (requestURL actionFilter t) res).2, _.
    split; [rewrite <- app_comm_cons, <- app_assoc; reflexivity|].
    rewrite fetchBody_events.
    assert (Hpost : ∀ e l, (∀ m, e ≠ EvSend m) →
      (∀ lg kv, e ≠ EvLog lg kv) →
      e ∉ (match Close (Body res) with
           | Some err =>
               [EvLog (logger t)
                  [("level", "warn"); ("msg", "failed to close http.Client");
                   ("err", Error err)]]
           | None => []
           end ++ ((λ entry, EvSend (sampleFor namespace entry)) <$> l))%list).
    { intros e l Hsend Hlog [Hin|Hin]%elem_of_app.
      - destruct (Close (Body res)).
        + apply elem_of_cons in Hin as [->|Hin]; [by eapply Hlog|].
          by apply elem_of_nil in Hin.
        + by apply elem_of_nil in Hin.
      - by apply not_elem_of_sends in Hin. }
    repeat split.
    + case_decide; intros Hin; absent_event Hin.
    + by apply Hpost.
    + intros m. case_decide; intros Hin; absent_event Hin.
    + by apply Hpost.
  - rewrite (fetch_Get_error actionFilter t cause HGet). cbn [fst snd].
    intros Hin. cbn in Hin. absent_event Hin.
Qed.

Lemma logged_app es es' : logged (es ++ es') = (logged es ++ logged es')%list.
Proof. unfold logged. apply omap_app. Qed.

Lemma logged_sends (namespace : string) (l : list (string * Z)) :
  logged ((λ entry, EvSend (sampleFor namespace entry)) <$> l) = [].
Proof. induction l as [|entry l IH]; [done|]. cbn. exact IH. Qed.

(** X10: a cycle writes to the log only when closing the body failed, and
    then one line, at level warn, with the text of the error of the close. *)
Theorem cycle_logs_only_close_failure (namespace actionFilter : string)
    (rangeOrder : list (string * Z) → list (string * Z))
    `{PathOps} `{Syntax} (t : TaskCollector) :
  logged (Update namespace actionFilter rangeOrder t).2 =
  match Get (hc t) (URL_String (requestURL actionFilter t)) with
  | inl res =>
      match Close (Body res) with
      | Some err =>
          [(logger t,
            [("level", "warn"); ("msg", "failed to close http.Client");
             ("err", Error err)])]
      | None => []
      end
  | inr _ => []
  end.
Proof.
  rewrite Update_events, logged_app, logged_sends, app_nil_r.
  destruct (Get (hc t) (URL_String (requestURL actionFilter t)))
    as [res|cause] eqn:HGet.
  - rewrite (fetch_Get_ok actionFilter t res HGet). cbn [snd].
    change (EvGet ?x :: ?l) with ([EvGet x] ++ l)%list.
    rewrite !logged_app, deferredClose_events, fetchBody_events.
    case_decide; destruct (Close (Body res)); reflexivity.
  - by rewrite (fetch_Get_error actionFilter t cause HGet).
Qed.

(** A cycle of the sample collector whose body fails to close. *)
Example logged_close_failure :
  logged (@Update "elasticsearch" defaultActionFilter Sample.reversed
            Sample.pathOps Sample.syntax
            (Sample.collector (Sample.respond 200 SampleMore.unclosableBody))).2
  = [({| sink := "stderr" |},
      [("level", "warn"); ("msg", "failed to close http.Client");
       ("err", "close failed")])].
Proof. vm_compute. reflexivity. Qed.

(** ** Empty snapshots and the shape of documents *)

(** X11: a cycle whose body decodes to no task ends well and sends nothing:
    its events are the request, the read and the close. *)
Theorem Update_empty_snapshot (namespace actionFilter : string)
    (rangeOrder : list (string * Z) → list (string * Z))
    `{PathOps} `{Syntax} (t : TaskCollector) (res : Response)
    (bts : string) (tr : TasksResponse) :
  (∀ l, rangeOrder l ≡ₚ l) →
  Get (hc t) (URL_String (requestURL actionFilter t)) = inl res →
  StatusCode res = StatusOK →
  ReadAll (Body res) = (bts, None) →
  Unmarshal bts zeroTasksResponse = (tr, None) →
  Tasks tr = [] →
  Update namespace actionFilter rangeOrder t
  = (Returns None,
     EvGet (URL_String (requestURL actionFilter t)) :: EvReadAll
       :: (deferredClose t res).2) ∧
  sent (Update namespace actionFilter rangeOrder t).2 = [].
Proof.
  intros Hperm HGet Hok Hread Hdec Hnil.
  pose proof (fetch_Get_ok actionFilter t res HGet) as Hf.
  rewrite (fetchBody_ok _ res bts tr Hok Hread Hdec) in Hf.
  cbn [fst snd app] in Hf. rewrite AggregateTasks_countsOf in Hf.
  assert (Hnone : rangeOrder (map_to_list (countsOf tr)) = []).
  { unfold countsOf. rewrite Hnil. cbn [foldl]. rewrite map_to_list_empty.
    apply Permutation_nil_r. apply Hperm. }
  rewrite (Update_fetch_ok namespace actionFilter rangeOrder t _ _ Hf).
  change (default ∅ (CountByAction {| CountByAction := Some (countsOf tr) |}))
    with (countsOf tr).
  rewrite Hnone. cbn [fmap list_fmap].
  rewrite app_nil_r. split; [reflexivity|].
  rewrite deferredClose_events. by destruct (Close (Body res)).
Qed.

Lemma Update_empty_snapshot_witness :
  let t := Sample.collector (Sample.respond 200 SampleMore.emptyBody) in
  @Update "elasticsearch" defaultActionFilter Sample.reversed
    Sample.pathOps SampleMore.syntax t
  = (Returns None,
     EvGet (@URL_String Sample.pathOps
              (@requestURL defaultActionFilter Sample.pathOps t))
       :: EvReadAll
       :: (deferredClose t {| StatusCode := 200; Body := SampleMore.emptyBody |}).2) ∧
  sent (@Update "elasticsearch" defaultActionFilter Sample.reversed
          Sample.pathOps SampleMore.syntax t).2 = [].
Proof.
  intros t.
  refine (@Update_empty_snapshot "elasticsearch" defaultActionFilter
            Sample.reversed Sample.pathOps SampleMore.syntax t
            {| StatusCode := 200; Body := SampleMore.emptyBody |}
            SampleMore.emptyText zeroTasksResponse _ _ _ _ _ _).
  - intros l. apply reverse_Permutation.
  - vm_compute; reflexivity.
  - vm_compute; reflexivity.
  - vm_compute; reflexivity.
  - vm_compute; reflexivity.
  - reflexivity.
Defined.

Section shape_facts.

Import json.

Implicit Types (d : decodeState).

Lemma savedError_saveError d err : savedError (saveError d err) ≠ None.
Proof. unfold saveError. destruct (savedError d) eqn:Hd; cbn; congruence. Qed.

Lemma decodeAction_ok d cur j :
  savedError (decodeAction d cur j).2 = None ↔
  savedError d = None ∧ shapedAction j = true.
Proof.
  destruct j; cbn [decodeAction snd shapedAction];
    try (split; [by intros ?%savedError_saveError|by intros [_ ?]]);
    (split; [by intros ?|by intros [? _]]).
Qed.

Lemma foldl_decodeTaskMember_ok (members : list (string * value)) st :
  savedError (foldl decodeTaskMember st members).2 = None ↔
  savedError st.2 = None ∧
  forallb (λ member,
             if matchesField "action" member.1 then shapedAction member.2
             else true) members = true.
Proof.
  revert st. induction members as [|member members IH]; intros st.
  - cbn. tauto.
  - cbn [foldl forallb]. rewrite IH, andb_true_iff.
    destruct st as [cur d]. unfold decodeTaskMember. cbn [snd].
    destruct (matchesField "action" member.1).
    + pose proof (decodeAction_ok d (Action cur) member.2) as Hact.
      destruct (decodeAction d (Action cur) member.2) as [a d']. cbn [snd] in *.
      tauto.
    + cbn [snd]. tauto.
Qed.

Lemma decodeTaskResponse_ok d cur j :
  savedError (decodeTaskResponse d cur j).2 = None ↔
  savedError d = None ∧ shapedTask j = true.
Proof.
  destruct j; cbn [decodeTaskResponse snd shapedTask];
    try (split; [by intros ?%savedError_saveError|by intros [_ ?]]).
  - split; [by intros ?|by intros [? _]].
  - apply foldl_decodeTaskMember_ok.
Qed.

Lemma foldl_decodeElement_ok (elems : list value) st :
  savedError (foldl decodeElement st elems).2 = None ↔
  savedError st.2 = None ∧ forallb shapedTask elems = true.
Proof.
  revert st. induction elems as [|j elems IH]; intros st.
  - cbn. tauto.
  - cbn [foldl forallb]. rewrite IH, andb_true_iff.
    destruct st as [acc d]. unfold decodeElement. cbn [snd].
    pose proof (decodeTaskResponse_ok d zeroTaskResponse j) as Htask.
    destruct (decodeTaskResponse d zeroTaskResponse j) as [task d'].
    cbn [snd] in *. tauto.
Qed.

Lemma decodeTasks_ok d cur j :
  savedError (decodeTasks d cur j).2 = None ↔
  savedError d = None ∧ shapedTasks j = true.
Proof.
  destruct j; cbn [decodeTasks snd shapedTasks];
    try (split; [by intros ?%savedError_saveError|by intros [_ ?]]).
  - split; [by intros ?|by intros [? _]].
  - apply foldl_decodeElement_ok.
Qed.

Lemma foldl_decodeResponseMember_ok (members : list (string * value)) st :
  savedError (foldl decodeResponseMember st members).2 = None ↔
  savedError st.2 = None ∧
  forallb (λ member,
             if matchesField "tasks" member.1 then shapedTasks member.2
             else true) members = true.
Proof.
  revert st. induction members as [|member members IH]; intros st.
  - cbn. tauto.
  - cbn [foldl forallb]. rewrite IH, andb_true_iff.
    destruct st as [cur d]. unfold decodeResponseMember. cbn [snd].
    destruct (matchesField "tasks" member.1).
    + pose proof (decodeTasks_ok d (Tasks cur) member.2) as Htasks.
      destruct (decodeTasks d (Tasks cur) member.2) as [ts d']. cbn [snd] in *.
      tauto.
    + cbn [snd]. tauto.
Qed.

Lemma decodeTasksResponse_ok d cur j :
  savedError (decodeTasksResponse d cur j).2 = None ↔
  savedError d = None ∧ shapedResponse j = true.
Proof.
  destruct j; cbn [decodeTasksResponse snd shapedResponse];
    try (split; [by intros ?%savedError_saveError|by intros [_ ?]]).
  - split; [by intros ?|by intros [? _]].
  - apply foldl_decodeResponseMember_ok.
Qed.

End shape_facts.

(** X12: a body is a decode error exactly when it is no JSON text or, as a
    document, has not the shape of the types: the response an object or
    [null]; every member that selects [tasks] an array or [null]; every
    element an object or [null]; every member that selects [action] a string
    or [null].  One misshapen value anywhere, also behind a well-shaped one
    of the same name, makes the whole body an error. *)
Theorem Unmarshal_error_iff_misshapen `{json.Syntax} (bts : string)
    (tr0 : TasksResponse) :
  match json.parse bts with
  | inr err => Unmarshal bts tr0 = (tr0, Some err)
  | inl j => (Unmarshal bts tr0).2 = None ↔ shapedResponse j = true
  end.
Proof.
  unfold Unmarshal. destruct (json.parse bts) as [j|err]; [|done].
  pose proof (decodeTasksResponse_ok (json.mkDecodeState None) tr0 j) as Hok.
  destruct (decodeTasksResponse (json.mkDecodeState None) tr0 j) as [tr d].
  cbn [snd json.savedError] in *. tauto.
Qed.

(** The sample bodies: the one with a number for [Action] is misshapen, the
    others are not; a text that is no JSON is the error of the syntax. *)
Example Unmarshal_shapes :
  shapedResponse Sample.bodyDoc = true ∧
  shapedResponse Sample.caseDoc = false ∧
  shapedResponse SampleMore.emptyDoc = true ∧
  (@Unmarshal Sample.syntax "<html>" zeroTasksResponse).2
  = Some (ExternalError "json.SyntaxError"
            "invalid character looking for beginning of value").
Proof. repeat split; vm_compute; reflexivity. Qed.

(** X13: the documents without tasks decode to the empty snapshot and no
    error: [null], an object without a member that selects [tasks], and an
    object whose member [tasks] is [null] or the empty array. *)
Theorem Unmarshal_empty_documents `{json.Syntax} :
  (∀ bts, json.parse bts = inl json.Null →
          Unmarshal bts zeroTasksResponse = (zeroTasksResponse, None)) ∧
  (∀ bts members,
     json.parse bts = inl (json.Object members) →
     unrecognized "tasks" members →
     Unmarshal bts zeroTasksResponse = (zeroTasksResponse, None)) ∧
  (∀ bts before v after,
     json.parse bts = inl (json.Object (before ++ ("tasks", v) :: after)) →
     unrecognized "tasks" before → unrecognized "tasks" after →
     v = json.Null ∨ v = json.Array [] →
     Unmarshal bts zeroTasksResponse = (zeroTasksResponse, None)).
Proof.
  split; [|split].
  - intros bts Hp. unfold Unmarshal. by rewrite Hp.
  - intros bts members Hp Hun. unfold Unmarshal. rewrite Hp.
    cbn [decodeTasksResponse].
    by rewrite foldl_decodeResponseMember_unrecognized.
  - intros bts before v after Hp Hb Ha Hv. unfold Unmarshal. rewrite Hp.
    cbn [decodeTasksResponse].
    rewrite foldl_app, (foldl_decodeResponseMember_unrecognized _ before) by done.
    cbn [foldl].
    rewrite (foldl_decodeResponseMember_unrecognized _ after) by done.
    destruct Hv as [-> | ->]; reflexivity.
Qed.

Lemma Unmarshal_empty_documents_witness :
  @Unmarshal SampleMore.syntax SampleMore.emptyText zeroTasksResponse
  = (zeroTasksResponse, None).
Proof.
  refine (proj2 (proj2 (@Unmarshal_empty_documents SampleMore.syntax))
            SampleMore.emptyText [] (json.Array []) [] _ _ _ _).
  - vm_compute; reflexivity.
  - constructor.
  - constructor.
  - by right.
Defined.

(** ** The request and the samples *)

Section request_facts.

Import url.
Context `{PathOps}.

Lemma setPath_keeps u p :
  User (setPath u p) = User u ∧ Opaque (setPath u p) = Opaque u ∧
  Fragment (setPath u p) = Fragment u ∧ RawFragment (setPath u p) = RawFragment u ∧
  ForceQuery (setPath u p) = ForceQuery u.
Proof.
  unfold setPath. destruct (unescapePath p); [|done].
  case_decide; done.
Qed.

End request_facts.

(** X14: of the base URL the request keeps the scheme, the user and the
    host, and takes the path into the resolution of [_tasks]; a query, a
    fragment or an opaque part of the base never reaches the request, whose
    query holds the two parameters of the collector only. *)
Theorem request_drops_base_query (actionFilter : string) `{url.PathOps}
    (lg : Logger) (client : Client) (base : url.URL)
    (query fragment rawFragment opaque : string) :
  let r := requestURL actionFilter {| logger := lg; hc := client; u := base |} in
  requestURL actionFilter
    {| logger := lg; hc := client;
       u := url.with_Opaque opaque
              (url.with_Fragment fragment rawFragment
                 (url.with_RawQuery query base)) |} = r ∧
  url.Scheme r = url.Scheme base ∧ url.User r = url.User base ∧
  url.Host r = url.Host base ∧
  url.Opaque r = "" ∧ url.Fragment r = "" ∧ url.RawFragment r = "" ∧
  url.RawQuery r
  = "actions=" +:+ url.QueryEscape actionFilter +:+ "&group_by=none".
Proof.
  intros r. subst r. unfold requestURL. cbn [u].
  rewrite !Query_ResolveReference_tasks, !Encode_request.
  rewrite !ResolveReference_tasks.
  split; [reflexivity|].
  cbn [url.Scheme url.User url.Host url.Opaque url.Fragment url.RawFragment
       url.RawQuery url.with_RawQuery].
  rewrite Scheme_setPath, Host_setPath.
  match goal with
  | |- context [url.setPath ?x ?p] =>
      destruct (setPath_keeps x p) as (-> & -> & -> & -> & _)
  end.
  repeat split.
Qed.

(** The sample base with a query and a fragment of its own. *)
Example request_drops_base_query_sample :
  @url.URL_String Sample.pathOps
    (@requestURL defaultActionFilter Sample.pathOps
       {| logger := {| sink := "stderr" |}; hc := Sample.refuse;
          u := url.with_Fragment "top" ""
                 (url.with_RawQuery "pretty=true" Sample.base) |})
  = "http://localhost:9200/_tasks?actions=indices%3A%2A&group_by=none".
Proof. vm_compute. reflexivity. Qed.

(** X15: every sample a cycle sends, whatever the cycle, is a gauge of the
    one descriptor of the collector and carries one label value for the one
    label [action] of the descriptor. *)
Theorem every_sample_fits_descriptor (namespace actionFilter : string)
    (rangeOrder : list (string * Z) → list (string * Z))
    `{url.PathOps} `{json.Syntax} (t : TaskCollector) (m : prometheus.Metric) :
  m ∈ sent (Update namespace actionFilter rangeOrder t).2 →
  prometheus.desc m = taskActionDesc namespace ∧
  prometheus.valType m = prometheus.GaugeValue ∧
  prometheus.variableLabels (prometheus.desc m) = ["action"] ∧
  length (prometheus.labelValues m)
  = length (prometheus.variableLabels (prometheus.desc m)).
Proof.
  rewrite Update_events, sent_app, sent_EvSend.
  destruct (fetch_shape actionFilter t) as [-> _]. cbn [app].
  intros ([action count] & -> & _)%list_elem_of_fmap.
  repeat split.
Qed.

Lemma every_sample_fits_descriptor_witness :
  let m := {| prometheus.desc := taskActionDesc "elasticsearch";
              prometheus.valType := prometheus.GaugeValue;
              prometheus.val := 1;
              prometheus.labelValues := ["cluster:monitor/nodes/stats"] |} in
  prometheus.desc m = taskActionDesc "elasticsearch" ∧
  prometheus.valType m = prometheus.GaugeValue ∧
  prometheus.variableLabels (prometheus.desc m) = ["action"] ∧
  length (prometheus.labelValues m)
  = length (prometheus.variableLabels (prometheus.desc m)).
Proof.
  intros m.
  refine (@every_sample_fits_descriptor "elasticsearch" defaultActionFilter
            Sample.reversed Sample.pathOps Sample.syntax
            (Sample.collector (Sample.respond 200 Sample.okBody)) m _).
  vm_compute. apply list_elem_of_further, list_elem_of_here.
Defined.

(** X16: a cycle that goes well sends as many samples as the snapshot has
    different actions, at most one per record; this holds for snapshots of
    any length. *)
Theorem Update_sample_count (namespace actionFilter : string)
    (rangeOrder : list (string * Z) → list (string * Z))
    `{url.PathOps} `{json.Syntax} (t : TaskCollector) (res : Response)
    (bts : string) (tr : TasksResponse) :
  (∀ l, rangeOrder l ≡ₚ l) →
  Get (hc t) (url.URL_String (requestURL actionFilter t)) = inl res →
  StatusCode res = StatusOK →
  ReadAll (Body res) = (bts, None) →
  Unmarshal bts zeroTasksResponse = (tr, None) →
  length (sent (Update namespace actionFilter rangeOrder t).2)
  = size (list_to_set (Action <$> Tasks tr) : gset string) ∧
  (length (sent (Update namespace actionFilter rangeOrder t).2)
   <= length (Tasks tr))%nat.
Proof.
  intros Hperm HGet Hok Hread Hdec.
  destruct (Update_sent_ok namespace actionFilter rangeOrder t res bts tr
              HGet Hok Hread Hdec) as [_ ->].
  rewrite length_fmap, (Permutation_length (Hperm _)), length_map_to_list.
  apply countsOf_size.
Qed.

Lemma Update_sample_count_witness :
  let t := Sample.collector (Sample.respond 200 Sample.okBody) in
  length (sent (@Update "elasticsearch" defaultActionFilter Sample.reversed
                  Sample.pathOps Sample.syntax t).2)
  = size (list_to_set (Action <$> Tasks Sample.tasks3) : gset string) ∧
  (length (sent (@Update "elasticsearch" defaultActionFilter Sample.reversed
                   Sample.pathOps Sample.syntax t).2)
   <= length (Tasks Sample.tasks3))%nat.
Proof.
  intros t.
  refine (@Update_sample_count "elasticsearch" defaultActionFilter
            Sample.reversed Sample.pathOps Sample.syntax t
            {| StatusCode := 200; Body := Sample.okBody |} Sample.bodyText
            Sample.tasks3 _ _ _ _ _).
  - intros l. apply reverse_Permutation.
  - vm_compute; reflexivity.
  - vm_compute; reflexivity.
  - vm_compute; reflexivity.
  - vm_compute; reflexivity.
Defined.

Section rounding_facts.

(** The conversion to [float64] is off by at most half of the last place
    it keeps. *)
Lemma round53_error a :
  2 ^ 53 <= a → Z.abs (round53 a - a) <= 2 ^ (Z.log2 a - 53).
Proof.
  intros Ha. unfold round53.
  destruct (a <? 2 ^ 53) eqn:Hlt; [apply Z.ltb_lt in Hlt; lia|].
  assert (Hlog : 53 <= Z.log2 a) by (apply Z.log2_le_pow2; lia).
  set (e := Z.log2 a - 52).
  assert (He : 1 <= e) by lia.
  replace (Z.log2 a - 53) with (e - 1) by lia.
  rewrite Z.land_ones, Z.shiftr_div_pow2, !Z.shiftl_mul_pow2 by lia.
  rewrite Z.mul_1_l.
  assert (Hpow : 2 ^ e = 2 * 2 ^ (e - 1)).
  { replace e with (e - 1 + 1) at 1 by lia. rewrite Z.pow_add_r by lia. lia. }
  assert (Hhalf : 0 < 2 ^ (e - 1)) by (apply Z.pow_pos_nonneg; lia).
  pose proof (Z.div_mod a (2 ^ e)) as Hdm.
  pose proof (Z.mod_pos_bound a (2 ^ e)) as Hmod.
  set (q := a / 2 ^ e) in *. set (r := a mod 2 ^ e) in *.
  destruct ((2 ^ (e - 1) <? r) || ((r =? 2 ^ (e - 1)) && Z.odd q)) eqn:Hup.
  - assert (2 ^ (e - 1) <= r).
    { apply orb_true_iff in Hup as [Hup|Hup].
      - apply Z.ltb_lt in Hup. lia.
      - apply andb_true_iff in Hup as [Hup _]. apply Z.eqb_eq in Hup. lia. }
    nia.
  - assert (r <= 2 ^ (e - 1)).
    { apply orb_false_iff in Hup as [Hup _]. apply Z.ltb_ge in Hup. lia. }
    nia.
Qed.

(** For an [int64] that is a count, the conversion is exact up to
    [2 ^ 53] and never off by more than 512. *)
Lemma float64_of_int64_error x :
  0 <= x <= max_int64 →
  Z.abs (float64_of_int64 x - x) <= 512 ∧
  (x <= 2 ^ 53 → float64_of_int64 x = x).
Proof.
  intros [Hx Hmax]. split.
  - destruct (decide (x < 2 ^ 53)) as [Hsmall|Hbig].
    + rewrite float64_of_int64_exact by lia. lia.
    + unfold float64_of_int64. rewrite Z.sgn_pos, (Z.abs_eq x), Z.mul_1_l by lia.
      etransitivity; [apply round53_error; lia|].
      assert (Z.log2 x <= 62).
      { apply Z.lt_succ_r, Z.log2_lt_pow2; [lia|]. unfold max_int64 in Hmax. lia. }
      change 512 with (2 ^ 9). apply Z.pow_le_mono_r; lia.
  - intros Hle. apply float64_of_int64_exact. lia.
Qed.

End rounding_facts.

(** X17: for a snapshot of any length a slice can have, the value of each
    sample of a cycle that goes well is the count of its action converted to
    [float64]: positive, the count itself up to [2 ^ 53], and never further
    than 512 from the count. *)
Theorem Update_sample_value_error (namespace actionFilter : string)
    (rangeOrder : list (string * Z) → list (string * Z))
    `{url.PathOps} `{json.Syntax} (t : TaskCollector) (res : Response)
    (bts : string) (tr : TasksResponse) (m : prometheus.Metric) :
  (∀ l, rangeOrder l ≡ₚ l) →
  Get (hc t) (url.URL_String (requestURL actionFilter t)) = inl res →
  StatusCode res = StatusOK →
  ReadAll (Body res) = (bts, None) →
  Unmarshal bts zeroTasksResponse = (tr, None) →
  Z.of_nat (length (Tasks tr)) <= max_int64 →
  m ∈ sent (Update namespace actionFilter rangeOrder t).2 →
  ∃ a,
    prometheus.labelValues m = [a] ∧
    prometheus.val m = float64_of_int64 (countOf a (Tasks tr)) ∧
    0 < prometheus.val m ∧
    Z.abs (prometheus.val m - countOf a (Tasks tr)) <= 512 ∧
    (countOf a (Tasks tr) <= 2 ^ 53 → prometheus.val m = countOf a (Tasks tr)).
Proof.
  intros Hperm HGet Hok Hread Hdec Hlen Hm.
  destruct (Update_sample_values namespace actionFilter rangeOrder t res bts tr
              Hperm HGet Hok Hread Hdec Hlen) as (_ & _ & _ & Hsamples).
  destruct (Hsamples m Hm) as (a & -> & Hc & Hpos). exists a.
  cbn [prometheus.labelValues prometheus.val] in *.
  pose proof (countOf_le_length a (Tasks tr)).
  destruct (float64_of_int64_error (countOf a (Tasks tr))) as [Herr Hexact];
    [lia|].
  repeat split; try done.
Qed.

Lemma Update_sample_value_error_witness :
  let m := {| prometheus.desc := taskActionDesc "elasticsearch";
              prometheus.valType := prometheus.GaugeValue;
              prometheus.val := 2;
              prometheus.labelValues := ["indices:data/write/bulk"] |} in
  ∃ a,
    prometheus.labelValues m = [a] ∧
    prometheus.val m = float64_of_int64 (countOf a (Tasks Sample.tasks3)) ∧
    0 < prometheus.val m ∧
    Z.abs (prometheus.val m - countOf a (Tasks Sample.tasks3)) <= 512 ∧
    (countOf a (Tasks Sample.tasks3) <= 2 ^ 53 →
     prometheus.val m = countOf a (Tasks Sample.tasks3)).
Proof.
  intros m.
  refine (@Update_sample_value_error "elasticsearch" defaultActionFilter
            Sample.reversed Sample.pathOps Sample.syntax
            (Sample.collector (Sample.respond 200 Sample.okBody))
            {| StatusCode := 200; Body := Sample.okBody |} Sample.bodyText
            Sample.tasks3 m _ _ _ _ _ _ _).
  - intros l. apply reverse_Permutation.
  - vm_compute; reflexivity.
  - vm_compute; reflexivity.
  - vm_compute; reflexivity.
  - vm_compute; reflexivity.
  - vm_compute; discriminate.
  - vm_compute. apply list_elem_of_here.
Defined.

(** X18: the order of the records in the body and the order in which the
    map is iterated change the order of the samples only: two cycles that go
    well on snapshots that are rearrangements of each other send the same
    samples up to order. *)
Theorem Update_samples_up_to_order (namespace actionFilter : string)
    (order1 order2 : list (string * Z) → list (string * Z))
    `{url.PathOps} `{json.Syntax} (t1 t2 : TaskCollector) (res1 res2 : Response)
    (bts1 bts2 : string) (tr1 tr2 : TasksResponse) :
  (∀ l, order1 l ≡ₚ l) → (∀ l, order2 l ≡ₚ l) →
  Get (hc t1) (url.URL_String (requestURL actionFilter t1)) = inl res1 →
  StatusCode res1 = StatusOK →
  ReadAll (Body res1) = (bts1, None) →
  Unmarshal bts1 zeroTasksResponse = (tr1, None) →
  Get (hc t2) (url.URL_String (requestURL actionFilter t2)) = inl res2 →
  StatusCode res2 = StatusOK →
  ReadAll (Body res2) = (bts2, None) →
  Unmarshal bts2 zeroTasksResponse = (tr2, None) →
  Tasks tr1 ≡ₚ Tasks tr2 →
  sent (Update namespace actionFilter order1 t1).2
  ≡ₚ sent (Update namespace actionFilter order2 t2).2.
Proof.
  intros Hp1 Hp2 HGet1 Hok1 Hread1 Hdec1 HGet2 Hok2 Hread2 Hdec2 Hperm.
  destruct (Update_sent_ok namespace actionFilter order1 t1 res1 bts1 tr1
              HGet1 Hok1 Hread1 Hdec1) as [_ ->].
  destruct (Update_sent_ok namespace actionFilter order2 t2 res2 bts2 tr2
              HGet2 Hok2 Hread2 Hdec2) as [_ ->].
  assert (Hsame : countsOf tr1 = countsOf tr2).
  { apply map_eq. intros a. rewrite !countsOf_lookup.
    by rewrite (countOf_Permutation a _ _ Hperm). }
  rewrite Hp1, Hp2, Hsame. done.
Qed.

Lemma Update_samples_up_to_order_witness :
  let t := Sample.collector (Sample.respond 200 Sample.okBody) in
  sent (@Update "elasticsearch" defaultActionFilter Sample.reversed
          Sample.pathOps Sample.syntax t).2
  ≡ₚ sent (@Update "elasticsearch" defaultActionFilter (λ l, l)
             Sample.pathOps Sample.syntax t).2.
Proof.
  intros t.
  refine (@Update_samples_up_to_order "elasticsearch" defaultActionFilter
            Sample.reversed (λ l, l) Sample.pathOps Sample.syntax t t
            {| StatusCode := 200; Body := Sample.okBody |}
            {| StatusCode := 200; Body := Sample.okBody |}
            Sample.bodyText Sample.bodyText Sample.tasks3 Sample.tasks3
            _ _ _ _ _ _ _ _ _ _ _).
  - intros l. apply reverse_Permutation.
  - intros l. reflexivity.
  - vm_compute; reflexivity.
  - vm_compute; reflexivity.
  - vm_compute; reflexivity.
  - vm_compute; reflexivity.
  - vm_compute; reflexivity.
  - vm_compute; reflexivity.
  - vm_compute; reflexivity.
  - vm_compute; reflexivity.
  - reflexivity.
Defined.
